(** * The message mutation pipeline of the chat plugin

    A shallow embedding of [chat/message_handlers.py]: the before-save and
    after-save hooks of the [message] record type and the [delete_message]
    operation, over an explicit model of the four tables the handlers read
    and write ([message], [conversation], [user_conversation] and
    [message_history]).

    Python exceptions and database writes are threaded through a small
    state-and-exception monad [io]: a computation takes the database and
    returns either the exception raised or a value, together with the
    database as the computation left it. *)

From Stdlib Require Import ZArith List String Bool Lia Permutation Sorted.
Import ListNotations.
Local Open Scope Z_scope.
Local Open Scope string_scope.

(** ** Exceptions *)

(** The exception classes of [chat/exc.py] that the handlers raise, and the
    built-in [TypeError] and [AttributeError] of the interpreter. *)
Inductive exn : Type :=
| AlreadyDeletedException
| ConversationNotFoundException
| MessageNotFoundException
| NotInConversationException
| NotSupportedException
| TypeError
| AttributeError.

(** ** Rows *)

Module Message.
(** A [message] record.  [_id] is [record.id.key], [conversation] is the
    key of the referenced conversation ([message.conversation_id]). *)
Record t : Type := mk {
  _id : string;
  conversation : string;
  seq : Z;
  body : string;
  deleted : bool;
  revision : Z;
  edited_at : option Z;
  edited_by : option string;
  message_status : option string;
  _acl : list string
}.

Definition set_deleted (v : bool) (m : t) : t :=
  mk (_id m) (conversation m) (seq m) (body m) v (revision m)
     (edited_at m) (edited_by m) (message_status m) (_acl m).

Definition set_revision (v : Z) (m : t) : t :=
  mk (_id m) (conversation m) (seq m) (body m) (deleted m) v
     (edited_at m) (edited_by m) (message_status m) (_acl m).

Definition set_edited_at (v : option Z) (m : t) : t :=
  mk (_id m) (conversation m) (seq m) (body m) (deleted m) (revision m)
     v (edited_by m) (message_status m) (_acl m).

Definition set_edited_by (v : option string) (m : t) : t :=
  mk (_id m) (conversation m) (seq m) (body m) (deleted m) (revision m)
     (edited_at m) v (message_status m) (_acl m).

Definition set_message_status (v : option string) (m : t) : t :=
  mk (_id m) (conversation m) (seq m) (body m) (deleted m) (revision m)
     (edited_at m) (edited_by m) v (_acl m).

Definition set_acl (v : list string) (m : t) : t :=
  mk (_id m) (conversation m) (seq m) (body m) (deleted m) (revision m)
     (edited_at m) (edited_by m) (message_status m) v.

Definition set_seq (v : Z) (m : t) : t :=
  mk (_id m) (conversation m) v (body m) (deleted m) (revision m)
     (edited_at m) (edited_by m) (message_status m) (_acl m).
End Message.

Module Conversation.
(** A [conversation] row: its key, the text held by the [last_message]
    column ([None] is SQL NULL) and the ACL its messages receive. *)
Record t : Type := mk {
  _id : string;
  last_message : option string;
  message_acl : list string
}.

Definition set_last_message (v : option string) (c : t) : t :=
  mk (_id c) v (message_acl c).
End Conversation.

Module UserConversation.
(** A [user_conversation] row. *)
Record t : Type := mk {
  user : string;
  conversation : string;
  unread_count : Z;
  last_read_message : option string;
  _updated_at : Z
}.

Definition set_last_read_message (v : option string) (uc : t) : t :=
  mk (user uc) (conversation uc) (unread_count uc) v (_updated_at uc).
End UserConversation.

Module MessageHistory.
(** [MessageHistory(message)]: a frozen copy of the message it is built
    from. *)
Record t : Type := mk { parent : Message.t }.
End MessageHistory.

(** ** The database *)

(** The tables, the sequence that numbers new messages, and the log of the
    events pushed to the participants (conversation, event type, message). *)
Record db : Type := mkdb {
  t_message : list Message.t;
  t_conversation : list Conversation.t;
  t_user_conversation : list UserConversation.t;
  t_message_history : list MessageHistory.t;
  message_seq : Z;
  notified : list (string * string * string)
}.

Definition with_message (v : list Message.t) (s : db) : db :=
  mkdb v (t_conversation s) (t_user_conversation s) (t_message_history s)
       (message_seq s) (notified s).

Definition with_conversation (v : list Conversation.t) (s : db) : db :=
  mkdb (t_message s) v (t_user_conversation s) (t_message_history s)
       (message_seq s) (notified s).

Definition with_user_conversation (v : list UserConversation.t) (s : db) : db :=
  mkdb (t_message s) (t_conversation s) v (t_message_history s)
       (message_seq s) (notified s).

Definition with_message_history (v : list MessageHistory.t) (s : db) : db :=
  mkdb (t_message s) (t_conversation s) (t_user_conversation s) v
       (message_seq s) (notified s).

Definition with_message_seq (v : Z) (s : db) : db :=
  mkdb (t_message s) (t_conversation s) (t_user_conversation s)
       (t_message_history s) v (notified s).

Definition with_notified (v : list (string * string * string)) (s : db) : db :=
  mkdb (t_message s) (t_conversation s) (t_user_conversation s)
       (t_message_history s) (message_seq s) v.

(** ** The monad *)

Definition io (A : Type) : Type := db -> (exn + A) * db.

Definition ret {A : Type} (a : A) : io A := fun s => (inr a, s).

Definition bind {A B : Type} (c : io A) (k : A -> io B) : io B :=
  fun s =>
    match c s with
    | (inl e, s') => (inl e, s')
    | (inr a, s') => k a s'
    end.

Definition raise {A : Type} (e : exn) : io A := fun s => (inl e, s).

(** A read of the database. *)
Definition query {A : Type} (f : db -> A) : io A := fun s => (inr (f s), s).

(** [conn.execute] of a statement that writes. *)
Definition execute (f : db -> db) : io unit := fun s => (inr tt, f s).

Declare Scope io_scope.
Delimit Scope io_scope with io.
Notation "x <- c ;; k" := (bind c (fun x => k))
  (at level 100, c at next level, right associativity) : io_scope.
Notation "c ;;; k" := (bind c (fun _ => k))
  (at level 100, right associativity) : io_scope.
Local Open Scope io_scope.

(** Modelled from the spec: [skygear.utils.db.conn] is not part of the
    sources.  The block under [with db.conn() as conn:] runs "within one
    transaction": when it raises, the writes made inside the block are
    rolled back and the exception propagates. *)
Definition with_db_conn {A : Type} (body : io A) : io A :=
  fun s =>
    match body s with
    | (inl e, _) => (inl e, s)
    | (inr a, s') => (inr a, s')
    end.

(** ** Collaborators of the handlers *)

(** [Message.from_record] and [serialize_record] convert between the
    record and the [Message] object; both carry the same fields. *)
Definition Message_from_record (record : Message.t) : Message.t := record.

Definition serialize_record (message : Message.t) : Message.t := message.

(** Modelled from the spec: [chat/message.py] is missing.
    [Message.fetch_one(message_id)] loads the message with that id, or
    [None] when there is none. *)
Definition Message_fetch_one (message_id : string) : io (option Message.t) :=
  query (fun s =>
    find (fun m => Message._id m =? message_id) (t_message s)).

(** Modelled from the spec: [chat/conversation.py] is missing.
    [Conversation.fetch_one(conversation_id)] loads the conversation row. *)
Definition Conversation_fetch_one (conversation_id : string)
  : io (option Conversation.t) :=
  query (fun s =>
    find (fun c => Conversation._id c =? conversation_id) (t_conversation s)).

(** Modelled from the spec: [chat/conversation.py] is missing.
    [Conversation.get_message_acl] gives the message ACL of the
    conversation; a conversation that does not exist is a
    [ConversationNotFoundException]. *)
Definition Conversation_get_message_acl (conversation_id : string)
  : io (list string) :=
  c <- Conversation_fetch_one conversation_id ;;
  match c with
  | None => raise ConversationNotFoundException
  | Some c => ret (Conversation.message_acl c)
  end.

(** Modelled from the spec: [chat/message_history.py] is missing.
    [message_history.save()] appends the snapshot to the archive. *)
Definition MessageHistory_save (h : MessageHistory.t) : io unit :=
  execute (fun s => with_message_history (t_message_history s ++ [h])%list s).

(** Modelled from the spec: [chat/message.py] is missing.
    [message.notifyParticipants(event_type)] hands the event to the
    notifier; the model records it. *)
Definition notifyParticipants (message : Message.t) (event_type : string)
  : io unit :=
  execute (fun s =>
    with_notified
      (notified s ++
       [(Message.conversation message, event_type, Message._id message)])%list
      s).

(** ** ORDER BY seq DESC LIMIT 1 *)

Fixpoint insert_desc (r : Message.t) (l : list Message.t) : list Message.t :=
  match l with
  | [] => [r]
  | x :: t =>
      if (Message.seq x <? Message.seq r)%Z then r :: x :: t
      else x :: insert_desc r t
  end.

Definition order_by_seq_desc (l : list Message.t) : list Message.t :=
  fold_right insert_desc [] l.

(** [cur.fetchone()]: the first row of the result, or [None]. *)
Definition fetchone (rows : list Message.t) : option Message.t := hd_error rows.

(** ** The SQL statements *)

(** UPDATE user_conversation SET unread_count = unread_count + 1,
    _updated_at = CURRENT_TIMESTAMP
    WHERE conversation = conversation_id AND user != user_id *)
Definition sql_bump_unread_count (CURRENT_TIMESTAMP : Z)
    (conversation_id user_id : string) (s : db) : db :=
  with_user_conversation
    (map (fun uc =>
            if (UserConversation.conversation uc =? conversation_id)
               && negb (UserConversation.user uc =? user_id)
            then UserConversation.mk
                   (UserConversation.user uc)
                   (UserConversation.conversation uc)
                   (UserConversation.unread_count uc + 1)
                   (UserConversation.last_read_message uc)
                   CURRENT_TIMESTAMP
            else uc)
         (t_user_conversation s)) s.

(** UPDATE conversation SET last_message = value WHERE _id = conversation_id *)
Definition sql_set_last_message (conversation_id : string)
    (value : option string) (s : db) : db :=
  with_conversation
    (map (fun c =>
            if Conversation._id c =? conversation_id
            then Conversation.set_last_message value c
            else c)
         (t_conversation s)) s.

(** SELECT _id FROM message WHERE deleted = false AND seq < seq
    ORDER BY seq DESC LIMIT 1 *)
Definition sql_select_new_last_message (seq : Z) (s : db) : list Message.t :=
  firstn 1
    (order_by_seq_desc
       (filter (fun m => negb (Message.deleted m) && (Message.seq m <? seq)%Z)
               (t_message s))).

(** UPDATE user_conversation SET last_read_message = new
    WHERE last_read_message = old.
    A NULL column never satisfies the comparison. *)
Definition sql_repoint_last_read_message (new : option string) (old : string)
    (s : db) : db :=
  with_user_conversation
    (map (fun uc =>
            match UserConversation.last_read_message uc with
            | Some k =>
                if k =? old
                then UserConversation.set_last_read_message new uc
                else uc
            | None => uc
            end)
         (t_user_conversation s)) s.

(** ** The handlers *)

Section Handlers.

(** The ambient context of one request: [current_user_id()], the clock
    read by [datetime.utcnow()] and the database's CURRENT_TIMESTAMP. *)
Variable current_user_id : string.
Variable utcnow : Z.
Variable CURRENT_TIMESTAMP : Z.

(** Modelled from the spec: [chat/user_conversation.py] is missing.
    [UserConversation.fetch_one(conversation_id)] is the row of the
    current actor for that conversation, or [None]. *)
Definition UserConversation_fetch_one (conversation_id : string)
  : io (option UserConversation.t) :=
  query (fun s =>
    find (fun uc =>
            (UserConversation.user uc =? current_user_id)
            && (UserConversation.conversation uc =? conversation_id))
         (t_user_conversation s)).

Definition handle_message_before_save
    (record : Message.t) (original_record : option Message.t)
  : io Message.t :=
  let message := Message_from_record record in
  match original_record with
  | Some o =>
      if Message.deleted o then raise AlreadyDeletedException else ret tt
  | None => ret tt
  end ;;;
  uc <- UserConversation_fetch_one (Message.conversation message) ;;
  match uc with
  | None => raise NotInConversationException
  | Some _ => ret tt
  end ;;;
  message <-
    match original_record with
    | None =>
        ret (Message.set_revision 1 (Message.set_deleted false message))
    | Some o =>
        let message_history := MessageHistory.mk (Message_from_record o) in
        MessageHistory_save message_history ;;;
        ret message
    end ;;
  let message := Message.set_edited_at (Some utcnow) message in
  let message := Message.set_edited_by (Some current_user_id) message in
  let message :=
    match Message.message_status message with
    | None => Message.set_message_status (Some "delivered") message
    | Some _ => message
    end in
  acl <- Conversation_get_message_acl (Message.conversation message) ;;
  let message := Message.set_acl acl message in
  ret (serialize_record message).

Definition handle_message_after_save
    (record : Message.t) (original_record : option Message.t)
  : io unit :=
  let message := Message_from_record record in
  let event_type := "create" in
  let event_type :=
    match original_record with
    | Some _ => "update"
    | None => event_type
    end in
  let event_type :=
    if Message.deleted record then "delete" else event_type in
  notifyParticipants message event_type ;;;
  match original_record with
  | None =>
      let conversation_id := Message.conversation message in
      execute (sql_bump_unread_count CURRENT_TIMESTAMP conversation_id
                                     current_user_id) ;;;
      execute (sql_set_last_message conversation_id
                                    (Some (Message._id record)))
  | Some _ => ret tt
  end.

Definition _get_new_last_message_id (message : Message.t)
  : io (option string) :=
  cur <- query (sql_select_new_last_message (Message.seq message)) ;;
  let row := fetchone cur in
  ret (match row with
       | None => None
       | Some row => Some (Message._id row)
       end).

(** The conversation is what [Conversation.fetch_one] returned;
    subscripting [None] is a [TypeError], and so is ['message/' + None].
    Modelled from the spec: [conversation['last_message_ref']] is the
    conversation's current [last_message] reference.  The code reads its
    [.recordID.key] without testing it: on a null reference that is an
    [AttributeError]. *)
Definition _update_conversation_last_message
    (conversation : option Conversation.t) (last_message : Message.t)
    (new_last_message_id : option string) : io unit :=
  let last_message_key := Message._id last_message in
  match conversation with
  | None => raise TypeError
  | Some conversation =>
      match Conversation.last_message conversation with
      | Some ref_key =>
          if last_message_key =? ref_key then
            let conversation_id := Message.conversation last_message in
            match new_last_message_id with
            | None => raise TypeError
            | Some new_last_message_id =>
                execute (sql_set_last_message conversation_id
                           (Some ("message/" ++ new_last_message_id)))
            end
          else ret tt
      | None => raise AttributeError
      end
  end.

(** Modelled from the spec: [last_message.key] is the key of the deleted
    message, the value the read pointers are compared with. *)
Definition _update_user_conversation_last_read_message
    (last_message : Message.t) (new_last_message_id : option string)
  : io unit :=
  execute (sql_repoint_last_read_message new_last_message_id
                                         (Message._id last_message)).

(** Modelled from the spec: the host record framework is not part of the
    sources.  Storing a record replaces the row with its id; a new record
    is appended with the next sequence number. *)
Definition persist (record : Message.t) (original_record : option Message.t)
  : io Message.t :=
  match original_record with
  | Some _ =>
      execute (fun s =>
        with_message
          (map (fun m =>
                  if Message._id m =? Message._id record then record else m)
               (t_message s)) s) ;;;
      ret record
  | None =>
      n <- query (fun s => message_seq s + 1) ;;
      let record := Message.set_seq n record in
      execute (fun s =>
        with_message_seq n (with_message (t_message s ++ [record])%list s)) ;;;
      ret record
  end.

(** Modelled from the spec: the host record framework is not part of the
    sources.  A save of a message runs the before-save hook, stores what
    the hook returned, then runs the after-save hook. *)
Definition record_save (record : Message.t) : io Message.t :=
  original_record <- Message_fetch_one (Message._id record) ;;
  saved <- handle_message_before_save record original_record ;;
  stored <- persist saved original_record ;;
  handle_message_after_save stored original_record ;;;
  ret stored.

(** Modelled from the spec: [chat/message.py] is missing.
    [message.delete()] sets [deleted] on the object and saves it. *)
Definition Message_delete (message : Message.t) : io Message.t :=
  let message := Message.set_deleted true message in
  record_save message ;;;
  ret message.

Definition delete_message (message_id : string) : io Message.t :=
  message <- Message_fetch_one message_id ;;
  match message with
  | None => raise MessageNotFoundException
  | Some message =>
      message <- Message_delete message ;;
      let record := serialize_record message in
      conversation <- Conversation_fetch_one (Message.conversation message) ;;
      with_db_conn (
        new_last_message_id <- _get_new_last_message_id message ;;
        _update_conversation_last_message conversation message
                                          new_last_message_id ;;;
        _update_user_conversation_last_read_message message
                                                    new_last_message_id) ;;;
      ret record
  end.

(** The before-delete hook of the [message] record type. *)
Definition message_before_delete_handler (record : Message.t) : io unit :=
  raise NotSupportedException.

End Handlers.

(** ** Vocabulary of the statements *)

(** What the before-save hook writes on every record it lets through:
    the edit stamp, the default status and the conversation's ACL. *)
Definition stamped (current_user_id : string) (utcnow : Z)
    (acl : list string) (message : Message.t) : Message.t :=
  let message := Message.set_edited_at (Some utcnow) message in
  let message := Message.set_edited_by (Some current_user_id) message in
  let message :=
    match Message.message_status message with
    | None => Message.set_message_status (Some "delivered") message
    | Some _ => message
    end in
  Message.set_acl acl message.

(** [is_new_last_message tbl sq r]: [r] is a non-deleted row of [tbl] with
    the greatest sequence number strictly below [sq], or [None] when [tbl]
    has no non-deleted row below [sq]. *)
Definition is_new_last_message (tbl : list Message.t) (sq : Z)
    (r : option Message.t) : Prop :=
  match r with
  | None =>
      forall m, In m tbl -> Message.deleted m = false ->
                (Message.seq m < sq)%Z -> False
  | Some h =>
      In h tbl /\ Message.deleted h = false /\ (Message.seq h < sq)%Z /\
      forall m, In m tbl -> Message.deleted m = false ->
                (Message.seq m < sq)%Z -> (Message.seq m <= Message.seq h)%Z
  end.

(** The head of a list dominates the sequence numbers of its tail. *)
Definition head_max (l : list Message.t) : Prop :=
  match l with
  | [] => True
  | h :: t => forall y, In y t -> (Message.seq y <= Message.seq h)%Z
  end.

(** ** Fixtures *)

Definition msg (id conv : string) (sq : Z) (b : string) : Message.t :=
  Message.mk id conv sq b false 1 (Some 0%Z) (Some "alice")
             (Some "delivered") ["alice"; "bob"].

(** One conversation, two messages, the newer one is the last message. *)
Definition db_two_messages : db :=
  mkdb [msg "m1" "c1" 1 "hello"; msg "m2" "c1" 2 "world"]
       [Conversation.mk "c1" (Some "m2") ["alice"; "bob"]]
       [UserConversation.mk "alice" "c1" 0 (Some "m2") 0;
        UserConversation.mk "bob" "c1" 1 (Some "m1") 0]
       [] 2 [].

(** One conversation whose only message is its last message. *)
Definition db_one_message : db :=
  mkdb [msg "m1" "c1" 1 "hello"]
       [Conversation.mk "c1" (Some "m1") ["alice"; "bob"]]
       [UserConversation.mk "alice" "c1" 0 (Some "m1") 0;
        UserConversation.mk "bob" "c1" 1 (Some "m1") 0]
       [] 1 [].

(** Two conversations; the older message lives in the other one. *)
Definition db_two_conversations : db :=
  mkdb [msg "mA" "c1" 1 "in c1"; msg "mB" "c2" 2 "in c2"]
       [Conversation.mk "c1" (Some "mA") ["alice"; "bob"];
        Conversation.mk "c2" (Some "mB") ["alice"; "carol"]]
       [UserConversation.mk "alice" "c1" 0 (Some "mA") 0;
        UserConversation.mk "bob" "c1" 0 (Some "mA") 0;
        UserConversation.mk "alice" "c2" 0 (Some "mB") 0;
        UserConversation.mk "carol" "c2" 1 (Some "mB") 0]
       [] 2 [].

(** A stored message that has been soft-deleted, and an edit submitted
    for the message with id [m1]. *)
Definition deleted_m1 : Message.t :=
  Message.set_deleted true (msg "m1" "c1" 1 "gone").

Definition edit_of_m1 : Message.t := msg "m1" "c1" 1 "edited".

(** A new message for conversation [c1], as a client may submit it. *)
Definition new_m3 : Message.t :=
  Message.mk "m3" "c1" 0 "new" true 7 None None None [].

(** A second edit of the same message, carrying revision 5. *)
Definition second_edit_of_m1 : Message.t :=
  Message.set_revision 5 (msg "m1" "c1" 1 "edited again").

(** The second message of [db_two_messages] once soft-deleted, and the
    database after alice has deleted it. *)
Definition deleted_m2 : Message.t :=
  Message.set_deleted true (msg "m2" "c1" 2 "world").

Definition db_after_delete_m2 : db :=
  snd (delete_message "alice" 10 11 "m2" db_two_messages).

(** The database after alice has created [new_m3], and the message as it
    was stored. *)
Definition db_after_create_m3 : db :=
  snd (record_save "alice" 10 11 new_m3 db_two_messages).

Definition stored_m3 : Message.t :=
  Message.mk "m3" "c1" 3 "new" false 1 (Some 10%Z) (Some "alice")
             (Some "delivered") ["alice"; "bob"].

(** The database after alice has tried to delete the only message of
    [db_one_message]. *)
Definition db_after_failed_delete : db :=
  snd (delete_message "alice" 10 11 "m1" db_one_message).

(** A conversation without any membership row, holding a deleted message. *)
Definition db_deleted_message : db :=
  mkdb [deleted_m1]
       [Conversation.mk "c1" None ["alice"; "bob"]]
       [] [] 1 [].

(** ** Reading messages *)

(** Modelled from the spec: [chat/conversation.py] is missing.
    [Conversation.exists(conversation_id)] tells whether the conversation
    row is there. *)
Definition Conversation_exists (conversation_id : string) : io bool :=
  query (fun s =>
    existsb (fun c => Conversation._id c =? conversation_id)
            (t_conversation s)).

Section GetMessages.

(** [Message.fetch_all_by_conversation_id] of the missing
    [chat/message.py]: a read of the database, left abstract. *)
Variable Message_fetch_all_by_conversation_id :
  string -> Z -> option Z -> option string -> db -> list Message.t.

(** The dictionary [{'results': [...]}] is represented by its only value. *)
Definition get_messages (conversation_id : string) (limit : Z)
    (before_time : option Z) (order : option string)
  : io (list Message.t) :=
  found <- Conversation_exists conversation_id ;;
  (if negb found then raise ConversationNotFoundException else ret tt) ;;;
  messages <- query (Message_fetch_all_by_conversation_id
                       conversation_id limit before_time order) ;;
  ret (map serialize_record messages).

End GetMessages.

(** ** Accounting vocabulary *)

(** The sum of the unread counters of a list of membership rows. *)
Definition total_unread (rows : list UserConversation.t) : Z :=
  fold_right (fun uc acc => (UserConversation.unread_count uc + acc)%Z)
             0%Z rows.

(** The membership rows of a conversation that belong to somebody else
    than the given user. *)
Definition other_participants (conversation_id user_id : string)
    (rows : list UserConversation.t) : list UserConversation.t :=
  filter (fun uc =>
            (UserConversation.conversation uc =? conversation_id)
            && negb (UserConversation.user uc =? user_id))
         rows.

(** Who is a member of what: the key of a membership row. *)
Definition membership (uc : UserConversation.t) : string * string :=
  (UserConversation.user uc, UserConversation.conversation uc).

(** The event a save announces to the participants. *)
Definition event_of_save (record : Message.t)
    (original : option Message.t) : string :=
  match original with
  | None => "create"
  | Some _ => if Message.deleted record then "delete" else "update"
  end.

(** ** The ordered query *)

Lemma insert_desc_In (r x : Message.t) (l : list Message.t) :
  In x (insert_desc r l) <-> x = r \/ In x l.
Proof.
  induction l as [|y t IH]; simpl.
  - intuition auto.
  - destruct (Message.seq y <? Message.seq r)%Z; simpl.
    + intuition auto.
    + rewrite IH. intuition auto.
Qed.

Lemma order_by_seq_desc_In (x : Message.t) (l : list Message.t) :
  In x (order_by_seq_desc l) <-> In x l.
Proof.
  induction l as [|y t IH]; simpl.
  - tauto.
  - rewrite insert_desc_In, IH. intuition auto.
Qed.

Lemma insert_desc_head_max (r : Message.t) (l : list Message.t) :
  head_max l -> head_max (insert_desc r l).
Proof.
  destruct l as [|x t]; simpl.
  - intros _ y [].
  - intros Hmax. destruct (Message.seq x <? Message.seq r)%Z eqn:E; simpl.
    + apply Z.ltb_lt in E. intros y [<-|Hy]; [lia|].
      specialize (Hmax y Hy). lia.
    + apply Z.ltb_ge in E. intros y Hy.
      apply insert_desc_In in Hy. destruct Hy as [->|Hy]; auto.
Qed.

Lemma order_by_seq_desc_head_max (l : list Message.t) :
  head_max (order_by_seq_desc l).
Proof.
  induction l as [|x t IH]; simpl.
  - exact I.
  - apply insert_desc_head_max, IH.
Qed.

Lemma fetchone_limit_1 (l : list Message.t) :
  fetchone (firstn 1 l) = hd_error l.
Proof. destruct l; reflexivity. Qed.

Lemma select_new_last_message_spec (sq : Z) (s : db) :
  is_new_last_message (t_message s) sq
                      (fetchone (sql_select_new_last_message sq s)).
Proof.
  unfold sql_select_new_last_message. rewrite fetchone_limit_1.
  set (f := fun m => negb (Message.deleted m) && (Message.seq m <? sq)%Z).
  assert (Hf : forall m, In m (filter f (t_message s)) <->
                         In m (t_message s) /\ Message.deleted m = false /\
                         (Message.seq m < sq)%Z).
  { intros m. rewrite filter_In. unfold f.
    rewrite andb_true_iff, negb_true_iff, Z.ltb_lt. tauto. }
  pose proof (order_by_seq_desc_head_max (filter f (t_message s))) as Hmax.
  pose proof (fun x => order_by_seq_desc_In x (filter f (t_message s))) as Hin.
  destruct (order_by_seq_desc (filter f (t_message s))) as [|h t]; simpl in *.
  - intros m Hm Hd Hs. apply (proj2 (Hin m)). apply Hf. auto.
  - assert (Hh : In h (filter f (t_message s))) by (apply Hin; auto).
    apply Hf in Hh. destruct Hh as (H1 & H2 & H3).
    repeat split; auto.
    intros m Hm Hd Hs.
    assert (Hm' : h = m \/ In m t) by (apply Hin, Hf; auto).
    destruct Hm' as [->|Hm']; [lia|auto].
Qed.

(** ** The hooks in closed form *)

Lemma before_save_run (uid : string) (now : Z) (record : Message.t)
    (original : option Message.t) (s : db) :
  handle_message_before_save uid now record original s =
  match original with
  | Some o =>
      if Message.deleted o then (inl AlreadyDeletedException, s)
      else
        match fst (UserConversation_fetch_one uid
                     (Message.conversation record) s) with
        | inr (Some _) =>
            let s1 := with_message_history
                        (t_message_history s ++ [MessageHistory.mk o])%list s in
            match find (fun c => Conversation._id c
                                 =? Message.conversation record)
                       (t_conversation s) with
            | None => (inl ConversationNotFoundException, s1)
            | Some c =>
                (inr (stamped uid now (Conversation.message_acl c) record), s1)
            end
        | _ => (inl NotInConversationException, s)
        end
  | None =>
      match fst (UserConversation_fetch_one uid
                   (Message.conversation record) s) with
      | inr (Some _) =>
          match find (fun c => Conversation._id c
                               =? Message.conversation record)
                     (t_conversation s) with
          | None => (inl ConversationNotFoundException, s)
          | Some c =>
              (inr (stamped uid now (Conversation.message_acl c)
                      (Message.set_revision 1
                         (Message.set_deleted false record))), s)
          end
      | _ => (inl NotInConversationException, s)
      end
  end.
Proof.
  unfold handle_message_before_save, UserConversation_fetch_one,
    Conversation_get_message_acl, Conversation_fetch_one,
    MessageHistory_save, Message_from_record, serialize_record,
    bind, ret, raise, query, execute, stamped.
  destruct original as [o|]; cbn;
    destruct (Message.message_status record); cbn.
  all: try (destruct (Message.deleted o); cbn; [reflexivity|]).
  all: destruct (find _ (t_user_conversation s)); cbn; [|reflexivity].
  all: destruct (find (fun c => Conversation._id c
                                =? Message.conversation record)
                      (t_conversation s)); reflexivity.
Qed.

Lemma before_save_frame (uid : string) (now : Z) (record : Message.t)
    (original : option Message.t) (s s' : db) (r : exn + Message.t) :
  handle_message_before_save uid now record original s = (r, s') ->
  t_message s' = t_message s /\
  t_conversation s' = t_conversation s /\
  t_user_conversation s' = t_user_conversation s /\
  message_seq s' = message_seq s /\
  notified s' = notified s.
Proof.
  rewrite before_save_run.
  destruct original as [o|].
  - destruct (Message.deleted o).
    { intros [= <- <-]. auto. }
    destruct (fst _) as [e|[uc|]].
    2: destruct (find _ (t_conversation s)).
    all: intros [= <- <-]; auto.
  - destruct (fst _) as [e|[uc|]].
    2: destruct (find _ (t_conversation s)).
    all: intros [= <- <-]; auto.
Qed.

Lemma stamped_id (uid : string) (now : Z) (acl : list string)
    (m : Message.t) :
  Message._id (stamped uid now acl m) = Message._id m /\
  Message.conversation (stamped uid now acl m) = Message.conversation m /\
  Message.seq (stamped uid now acl m) = Message.seq m /\
  Message.body (stamped uid now acl m) = Message.body m /\
  Message.deleted (stamped uid now acl m) = Message.deleted m /\
  Message.revision (stamped uid now acl m) = Message.revision m.
Proof.
  unfold stamped. destruct m as [i c q b d r ea eb [st|] a]; cbn; auto 10.
Qed.

(** What the before-save hook keeps of the record it is given. *)
Lemma before_save_keeps (uid : string) (now : Z) (record saved : Message.t)
    (original : option Message.t) (s s' : db) :
  handle_message_before_save uid now record original s = (inr saved, s') ->
  Message._id saved = Message._id record /\
  Message.conversation saved = Message.conversation record /\
  Message.seq saved = Message.seq record /\
  Message.body saved = Message.body record /\
  (exists c, find (fun c => Conversation._id c =? Message.conversation record)
                  (t_conversation s) = Some c).
Proof.
  rewrite before_save_run.
  destruct original as [o|].
  - destruct (Message.deleted o); [discriminate|].
    destruct (fst _) as [e|[uc|]]; try discriminate.
    destruct (find _ (t_conversation s)) as [c|]; [|discriminate].
    intros [= <- <-].
    destruct (stamped_id uid now (Conversation.message_acl c) record)
      as (H1 & H2 & H3 & H4 & _).
    eauto 10.
  - destruct (fst _) as [e|[uc|]]; try discriminate.
    destruct (find _ (t_conversation s)) as [c|]; [|discriminate].
    intros [= <- <-].
    destruct (stamped_id uid now (Conversation.message_acl c)
                (Message.set_revision 1 (Message.set_deleted false record)))
      as (H1 & H2 & H3 & H4 & _).
    cbn in *. eauto 10.
Qed.

(** ** The save pipeline in closed form *)

Lemma record_save_run (uid : string) (now ts : Z) (record : Message.t)
    (s : db) :
  record_save uid now ts record s =
  let original :=
    find (fun m => Message._id m =? Message._id record) (t_message s) in
  match handle_message_before_save uid now record original s with
  | (inl e, s1) => (inl e, s1)
  | (inr saved, s1) =>
      match original with
      | Some _ =>
          (inr saved,
           with_notified
             (notified s1 ++
              [(Message.conversation saved,
                if Message.deleted saved then "delete" else "update",
                Message._id saved)])%list
             (with_message
                (map (fun m => if Message._id m =? Message._id saved
                               then saved else m)
                     (t_message s1)) s1))
      | None =>
          let stored := Message.set_seq (message_seq s1 + 1) saved in
          (inr stored,
           sql_set_last_message (Message.conversation stored)
             (Some (Message._id stored))
             (sql_bump_unread_count ts (Message.conversation stored) uid
                (with_notified
                   (notified s1 ++
                    [(Message.conversation stored,
                      if Message.deleted stored then "delete" else "create",
                      Message._id stored)])%list
                   (with_message_seq (message_seq s1 + 1)
                      (with_message (t_message s1 ++ [stored])%list s1)))))
      end
  end.
Proof.
  unfold record_save, Message_fetch_one, bind, query. cbn.
  destruct (handle_message_before_save uid now record _ s) as [[e|saved] s1];
    [reflexivity|].
  destruct (find _ (t_message s)); reflexivity.
Qed.

(** A save leaves the pointers of an edited message's conversation and the
    membership rows alone; only a creation touches them. *)
Lemma record_save_edit_frame (uid : string) (now ts : Z)
    (record o : Message.t) (s s' : db) (r : exn + Message.t) :
  find (fun m => Message._id m =? Message._id record) (t_message s) = Some o ->
  record_save uid now ts record s = (r, s') ->
  t_conversation s' = t_conversation s /\
  t_user_conversation s' = t_user_conversation s /\
  match r with
  | inl _ => t_message s' = t_message s
  | inr saved =>
      t_message s' =
      map (fun m => if Message._id m =? Message._id record then saved else m)
          (t_message s)
  end.
Proof.
  intros Ho. rewrite record_save_run. cbv zeta. rewrite Ho.
  destruct (handle_message_before_save uid now record (Some o) s)
    as [[e|saved] s1] eqn:Hb.
  - destruct (before_save_frame _ _ _ _ _ _ _ Hb) as (H1 & H2 & H3 & _).
    intros [= <- <-]. auto.
  - destruct (before_save_frame _ _ _ _ _ _ _ Hb) as (H1 & H2 & H3 & _).
    destruct (before_save_keeps _ _ _ _ _ _ _ Hb) as (Hid & _).
    intros [= <- <-]. cbn. rewrite H1, Hid. auto.
Qed.

(** ** The delete operation in closed form *)

Lemma delete_transaction_run (conversation : option Conversation.t)
    (message : Message.t) (s : db) :
  with_db_conn
    (bind (_get_new_last_message_id message) (fun new_last_message_id =>
     bind (_update_conversation_last_message conversation message
                                              new_last_message_id) (fun _ =>
     _update_user_conversation_last_read_message message
                                                 new_last_message_id))) s =
  let new_id :=
    option_map Message._id
      (fetchone (sql_select_new_last_message (Message.seq message) s)) in
  match conversation with
  | None => (inl TypeError, s)
  | Some c =>
      match Conversation.last_message c with
      | Some ref_key =>
          if Message._id message =? ref_key then
            match new_id with
            | None => (inl TypeError, s)
            | Some k =>
                (inr tt,
                 sql_repoint_last_read_message new_id (Message._id message)
                   (sql_set_last_message (Message.conversation message)
                      (Some ("message/" ++ k)) s))
            end
          else
            (inr tt,
             sql_repoint_last_read_message new_id (Message._id message) s)
      | None => (inl AttributeError, s)
      end
  end.
Proof.
  unfold with_db_conn, _get_new_last_message_id,
    _update_conversation_last_message,
    _update_user_conversation_last_read_message,
    bind, ret, raise, query, execute. cbn.
  destruct (fetchone _) as [row|]; cbn;
    destruct conversation as [c|]; cbn; try reflexivity;
    destruct (Conversation.last_message c) as [k|]; cbn; try reflexivity;
    destruct (Message._id message =? k); reflexivity.
Qed.

Lemma delete_message_run (uid : string) (now ts : Z) (message_id : string)
    (s : db) :
  delete_message uid now ts message_id s =
  match find (fun m => Message._id m =? message_id) (t_message s) with
  | None => (inl MessageNotFoundException, s)
  | Some m =>
      let message := Message.set_deleted true m in
      match record_save uid now ts message s with
      | (inl e, s1) => (inl e, s1)
      | (inr _, s1) =>
          let conversation :=
            find (fun c => Conversation._id c =? Message.conversation message)
                 (t_conversation s1) in
          match
            with_db_conn
              (bind (_get_new_last_message_id message)
                 (fun new_last_message_id =>
                  bind (_update_conversation_last_message conversation message
                          new_last_message_id)
                    (fun _ =>
                     _update_user_conversation_last_read_message message
                       new_last_message_id))) s1
          with
          | (inl e, s2) => (inl e, s2)
          | (inr _, s2) => (inr message, s2)
          end
      end
  end.
Proof.
  unfold delete_message, Message_fetch_one, Message_delete,
    Conversation_fetch_one, serialize_record.
  unfold bind at 1. unfold query at 1.
  destruct (find _ (t_message s)) as [m|]; [|reflexivity].
  unfold bind at 1. unfold bind at 1.
  destruct (record_save uid now ts (Message.set_deleted true m) s)
    as [[e|saved] s1]; [reflexivity|].
  unfold ret at 1. unfold bind at 1. unfold query at 1.
  unfold bind at 1. cbv zeta.
  destruct (with_db_conn _ s1) as [[e|u] s2]; reflexivity.
Qed.

(** ** Lookups by id *)

Lemma find_by_id (id : string) (l : list Message.t) (m : Message.t) :
  find (fun x => Message._id x =? id) l = Some m ->
  Message._id m = id /\ In m l.
Proof.
  intros H. apply find_some in H. destruct H as [Hin Heq].
  apply String.eqb_eq in Heq. auto.
Qed.

Lemma find_replace_other (id id' : string) (saved : Message.t)
    (l : list Message.t) :
  id' <> id -> Message._id saved = id' ->
  find (fun x => Message._id x =? id)
       (map (fun x => if Message._id x =? id' then saved else x) l) =
  find (fun x => Message._id x =? id) l.
Proof.
  intros Hne Hs. induction l as [|x t IH]; cbn; [reflexivity|].
  destruct (Message._id x =? id') eqn:E.
  - apply String.eqb_eq in E.
    replace (Message._id saved =? id) with false
      by (symmetry; apply String.eqb_neq; congruence).
    replace (Message._id x =? id) with false
      by (symmetry; apply String.eqb_neq; congruence).
    exact IH.
  - destruct (Message._id x =? id); [reflexivity|exact IH].
Qed.

Lemma find_replace_same (id : string) (saved o : Message.t)
    (l : list Message.t) :
  Message._id saved = id ->
  find (fun x => Message._id x =? id) l = Some o ->
  find (fun x => Message._id x =? id)
       (map (fun x => if Message._id x =? id then saved else x) l) =
  Some saved.
Proof.
  intros Hs. induction l as [|x t IH]; cbn; [discriminate|].
  destruct (Message._id x =? id) eqn:E.
  - intros _. rewrite Hs, String.eqb_refl. reflexivity.
  - rewrite E. exact IH.
Qed.

Lemma find_append_other (id : string) (x : Message.t) (l : list Message.t) :
  Message._id x <> id ->
  find (fun y => Message._id y =? id) (l ++ [x]) =
  find (fun y => Message._id y =? id) l.
Proof.
  intros Hne. induction l as [|y t IH]; cbn.
  - apply String.eqb_neq in Hne. rewrite Hne. reflexivity.
  - destruct (Message._id y =? id); [reflexivity|exact IH].
Qed.

(** ** Frames *)

Lemma delete_transaction_frame (conversation : option Conversation.t)
    (message : Message.t) (s s' : db) (r : exn + unit) :
  with_db_conn
    (bind (_get_new_last_message_id message) (fun new_last_message_id =>
     bind (_update_conversation_last_message conversation message
                                              new_last_message_id) (fun _ =>
     _update_user_conversation_last_read_message message
                                                 new_last_message_id))) s
  = (r, s') ->
  t_message s' = t_message s /\
  t_message_history s' = t_message_history s /\
  match r with
  | inl e => (e = TypeError \/ e = AttributeError) /\ s' = s
  | inr _ => True
  end.
Proof.
  rewrite delete_transaction_run. cbv zeta.
  destruct conversation as [c|]; [|intros [= <- <-]; auto].
  destruct (Conversation.last_message c) as [k|].
  - destruct (Message._id message =? k).
    + destruct (option_map _ _); intros [= <- <-]; auto.
    + intros [= <- <-]; auto.
  - intros [= <- <-]; auto.
Qed.

(** A save never touches the stored row of an already-deleted message. *)
Lemma record_save_keeps_deleted (uid : string) (now ts : Z) (id : string)
    (m record : Message.t) (s s' : db) (r : exn + Message.t) :
  find (fun x => Message._id x =? id) (t_message s) = Some m ->
  Message.deleted m = true ->
  record_save uid now ts record s = (r, s') ->
  find (fun x => Message._id x =? id) (t_message s') = Some m /\
  (Message._id record = id -> r = inl AlreadyDeletedException /\ s' = s).
Proof.
  intros Hm Hd. rewrite record_save_run. cbv zeta.
  destruct (String.eqb_spec (Message._id record) id) as [Heq|Hne].
  - rewrite Heq, Hm, before_save_run, Hd.
    intros [= <- <-]. auto.
  - destruct (handle_message_before_save uid now record _ s)
      as [[e|saved] s1] eqn:Hb.
    + destruct (before_save_frame _ _ _ _ _ _ _ Hb) as (H1 & _).
      intros [= <- <-]. rewrite H1. split; [exact Hm|contradiction].
    + destruct (before_save_frame _ _ _ _ _ _ _ Hb) as (H1 & _).
      destruct (before_save_keeps _ _ _ _ _ _ _ Hb) as (Hid & _).
      destruct (find (fun x => Message._id x =? Message._id record)
                     (t_message s)) as [o|]; intros [= <- <-]; cbn;
        rewrite H1; (split; [|contradiction]).
      * rewrite find_replace_other; auto. congruence.
      * rewrite find_append_other; auto. cbn. congruence.
Qed.

Lemma fetch_one_find (id : string) (s : db) (r : option Message.t) :
  Message_fetch_one id s = (inr r, s) <->
  find (fun x => Message._id x =? id) (t_message s) = r.
Proof.
  unfold Message_fetch_one, query. split.
  - intros [= H]. exact H.
  - intros ->. reflexivity.
Qed.

(** An edit through the save pipeline: the archive gains the stored
    message, the table then holds what the hook returned. *)
Lemma record_save_edit_history (uid : string) (now ts : Z)
    (record o saved : Message.t) (s s' : db) :
  find (fun x => Message._id x =? Message._id record) (t_message s) = Some o ->
  record_save uid now ts record s = (inr saved, s') ->
  t_message_history s' =
    (t_message_history s ++ [MessageHistory.mk o])%list /\
  find (fun x => Message._id x =? Message._id record) (t_message s') =
    Some saved /\
  Message._id saved = Message._id record /\
  Message.body saved = Message.body record /\
  Message.revision saved = Message.revision record.
Proof.
  intros Ho. rewrite record_save_run. cbv zeta. rewrite Ho.
  destruct (handle_message_before_save uid now record (Some o) s)
    as [[e|sv] s1] eqn:Hb; [discriminate|].
  destruct (before_save_frame _ _ _ _ _ _ _ Hb) as (H1 & _).
  destruct (before_save_keeps _ _ _ _ _ _ _ Hb) as (Hid & _ & _ & Hbody & _).
  rewrite before_save_run in Hb.
  destruct (Message.deleted o); [discriminate|].
  destruct (fst _) as [e|[uc|]]; try discriminate.
  destruct (find _ (t_conversation s)) as [c|]; [|discriminate].
  injection Hb as Hsv Hs1.
  intros [= <- <-]. cbn. rewrite <- Hs1. cbn.
  repeat split; auto.
  - rewrite Hid. apply find_replace_same with (o := o); auto.
  - rewrite <- Hsv. apply stamped_id.
Qed.

(** ** C5 *)

(** C5. A message whose [deleted] flag is set rejects every save and every
    further delete with [AlreadyDeletedException], the database being left
    as it was; no save and no delete, of this or of any other message,
    changes its stored row afterwards, so the flag never returns to
    [false]. *)
Theorem C5_deleted_message_is_final (uid : string) (now ts : Z)
    (id : string) (m : Message.t) (s : db) :
  Message_fetch_one id s = (inr (Some m), s) ->
  Message.deleted m = true ->
  (forall record,
     handle_message_before_save uid now record (Some m) s =
     (inl AlreadyDeletedException, s)) /\
  (forall record,
     Message._id record = id ->
     record_save uid now ts record s = (inl AlreadyDeletedException, s)) /\
  delete_message uid now ts id s = (inl AlreadyDeletedException, s) /\
  (forall record r s',
     record_save uid now ts record s = (r, s') ->
     Message_fetch_one id s' = (inr (Some m), s')) /\
  (forall id' r s',
     delete_message uid now ts id' s = (r, s') ->
     Message_fetch_one id s' = (inr (Some m), s')).
Proof.
  intros Hf Hd. apply fetch_one_find in Hf.
  assert (Hsave : forall record,
            Message._id record = id ->
            record_save uid now ts record s =
            (inl AlreadyDeletedException, s)).
  { intros record Hid.
    destruct (record_save uid now ts record s) as [r s'] eqn:E.
    destruct (record_save_keeps_deleted _ _ _ _ _ _ _ _ _ Hf Hd E)
      as [_ H].
    destruct (H Hid) as [-> ->]. reflexivity. }
  split; [|split; [|split; [|split]]].
  - intros record. rewrite before_save_run, Hd. reflexivity.
  - exact Hsave.
  - rewrite delete_message_run, Hf. cbv zeta.
    rewrite Hsave; [reflexivity|].
    cbn. apply (find_by_id _ _ _ Hf).
  - intros record r s' E. apply fetch_one_find.
    apply (record_save_keeps_deleted _ _ _ _ _ _ _ _ _ Hf Hd E).
  - intros id' r s'. rewrite delete_message_run.
    destruct (find (fun x => Message._id x =? id') (t_message s)) as [m'|].
    2: { intros [= <- <-]. apply fetch_one_find, Hf. }
    cbv zeta.
    destruct (record_save uid now ts (Message.set_deleted true m') s)
      as [[e|sv] s1] eqn:E.
    + intros [= <- <-]. apply fetch_one_find.
      apply (record_save_keeps_deleted _ _ _ _ _ _ _ _ _ Hf Hd E).
    + destruct (with_db_conn _ s1) as [r2 s2] eqn:T.
      destruct (delete_transaction_frame _ _ _ _ _ T) as (Hmsg & _).
      assert (Hkeep : find (fun x => Message._id x =? id) (t_message s2)
                      = Some m).
      { rewrite Hmsg.
        apply (record_save_keeps_deleted _ _ _ _ _ _ _ _ _ Hf Hd E). }
      destruct r2; intros [= <- <-]; apply fetch_one_find, Hkeep.
Qed.

Lemma C5_witness :
  delete_message "alice" 10 11 "m1" db_deleted_message =
  (inl AlreadyDeletedException, db_deleted_message).
Proof.
  apply (C5_deleted_message_is_final "alice" 10 11 "m1" deleted_m1
           db_deleted_message); reflexivity.
Defined.

(** ** C10 *)

(** C10, as stated, fails: a save of an already-deleted message by an
    actor without a membership row (here the conversation has no
    membership row at all) is rejected with [AlreadyDeletedException],
    not with [NotInConversationException]. *)
Lemma C10_counterexample :
  t_user_conversation db_deleted_message = [] /\
  Message_fetch_one "m1" db_deleted_message =
    (inr (Some deleted_m1), db_deleted_message) /\
  handle_message_before_save "alice" 10 edit_of_m1 (Some deleted_m1)
                             db_deleted_message
  = (inl AlreadyDeletedException, db_deleted_message) /\
  handle_message_before_save "alice" 10 edit_of_m1 (Some deleted_m1)
                             db_deleted_message
  <> (inl NotInConversationException, db_deleted_message).
Proof.
  repeat split; try reflexivity. discriminate.
Qed.

(** C10 (amended). The membership check runs on every save, creation and
    edit alike: when the actor has no [user_conversation] row for the
    message's conversation and the stored message, if any, is not already
    deleted, the before-save hook raises [NotInConversationException] and
    leaves the database as it was. *)
Theorem C10_membership_checked_on_every_save (uid : string) (now : Z)
    (record : Message.t) (original : option Message.t) (s : db) :
  UserConversation_fetch_one uid (Message.conversation record) s =
    (inr None, s) ->
  match original with
  | Some o => Message.deleted o = false
  | None => True
  end ->
  handle_message_before_save uid now record original s =
  (inl NotInConversationException, s).
Proof.
  intros Huc Hnd. rewrite before_save_run, Huc. cbn.
  destruct original as [o|]; [rewrite Hnd|]; reflexivity.
Qed.

Lemma C10_witness :
  handle_message_before_save "carol" 10 edit_of_m1
    (Some (msg "m1" "c1" 1 "hello")) db_two_messages
  = (inl NotInConversationException, db_two_messages).
Proof.
  apply (C10_membership_checked_on_every_save "carol" 10 edit_of_m1
           (Some (msg "m1" "c1" 1 "hello")) db_two_messages); reflexivity.
Defined.

(** ** C2 *)

(** C2, as stated, fails: a successful edit of a message at revision 1
    that submits revision 1 stores revision 1, not 2. *)
Lemma C2_counterexample :
  Message_fetch_one "m1" db_two_messages =
    (inr (Some (msg "m1" "c1" 1 "hello")), db_two_messages) /\
  Message.revision (msg "m1" "c1" 1 "hello") = 1%Z /\
  exists stored s',
    record_save "alice" 10 11 edit_of_m1 db_two_messages = (inr stored, s') /\
    Message_fetch_one "m1" s' = (inr (Some stored), s') /\
    Message.body stored = "edited" /\
    Message.revision stored = 1%Z /\
    Message.revision stored <> (1 + 1)%Z.
Proof.
  split; [reflexivity|]. split; [reflexivity|].
  eexists. eexists. split; [vm_compute; reflexivity|].
  repeat split; try reflexivity. discriminate.
Qed.

(** C2 (amended). On creation the before-save hook sets [revision] to 1,
    whatever the record carried; on an edit it returns the revision the
    submitted record carries, unchanged: the hook neither increments the
    revision nor compares it with the stored one. *)
Theorem C2_revision_set_by_before_save (uid : string) (now : Z)
    (record saved : Message.t) (original : option Message.t) (s s' : db) :
  handle_message_before_save uid now record original s = (inr saved, s') ->
  Message.revision saved =
  match original with
  | None => 1%Z
  | Some _ => Message.revision record
  end.
Proof.
  rewrite before_save_run.
  destruct original as [o|].
  - destruct (Message.deleted o); [discriminate|].
    destruct (fst _) as [e|[uc|]]; try discriminate.
    destruct (find _ (t_conversation s)) as [c|]; [|discriminate].
    intros [= <- _]. apply stamped_id.
  - destruct (fst _) as [e|[uc|]]; try discriminate.
    destruct (find _ (t_conversation s)) as [c|]; [|discriminate].
    intros [= <- _].
    destruct (stamped_id uid now (Conversation.message_acl c)
                (Message.set_revision 1 (Message.set_deleted false record)))
      as (_ & _ & _ & _ & _ & ->).
    reflexivity.
Qed.

Lemma C2_witness :
  Message.revision
    (stamped "alice" 10 ["alice"; "bob"] second_edit_of_m1) = 5%Z.
Proof.
  apply (C2_revision_set_by_before_save "alice" 10 second_edit_of_m1
           (stamped "alice" 10 ["alice"; "bob"] second_edit_of_m1)
           (Some (msg "m1" "c1" 1 "hello")) db_two_messages
           (with_message_history
              [MessageHistory.mk (msg "m1" "c1" 1 "hello")]
              db_two_messages)).
  reflexivity.
Defined.

(** ** C9 *)

Lemma before_save_history (uid : string) (now : Z)
    (record : Message.t) (original : option Message.t) (s s' : db)
    (r : exn + Message.t) :
  handle_message_before_save uid now record original s = (r, s') ->
  match original, r with
  | Some o, inr _ =>
      t_message_history s' =
      (t_message_history s ++ [MessageHistory.mk o])%list
  | None, _ => t_message_history s' = t_message_history s
  | Some _, inl _ => True
  end.
Proof.
  rewrite before_save_run.
  destruct original as [o|].
  - destruct (Message.deleted o).
    { intros [= <- <-]. exact I. }
    destruct (fst _) as [e|[uc|]].
    2: destruct (find _ (t_conversation s)).
    all: intros [= <- <-]; auto.
  - destruct (fst _) as [e|[uc|]].
    2: destruct (find _ (t_conversation s)).
    all: intros [= <- <-]; auto.
Qed.

Lemma record_save_create_history (uid : string) (now ts : Z)
    (record : Message.t) (s : db) :
  find (fun x => Message._id x =? Message._id record) (t_message s) = None ->
  t_message_history (snd (record_save uid now ts record s)) =
  t_message_history s.
Proof.
  intros Hn. rewrite record_save_run. cbv zeta. rewrite Hn.
  destruct (handle_message_before_save uid now record None s)
    as [[e|sv] s1] eqn:Hb;
    apply before_save_history in Hb; cbn; exact Hb.
Qed.

(** C9. Creation writes no history row, neither in the before-save hook
    nor in the rest of the save.  A successful edit appends exactly one
    row, the stored message as it was before the edit, and the hook writes
    it while the message table still holds the pre-edit message.  After
    two successful edits of a message the archive has gained two rows: the
    message as stored before the first edit and the message as stored
    before the second, which carries the body and the revision that the
    first edit saved. *)
Theorem C9_history_snapshot_on_edit :
  (forall uid now record s,
     t_message_history
       (snd (handle_message_before_save uid now record None s)) =
     t_message_history s) /\
  (forall uid now ts record s,
     Message_fetch_one (Message._id record) s = (inr None, s) ->
     t_message_history (snd (record_save uid now ts record s)) =
     t_message_history s) /\
  (forall uid now record o saved s s',
     handle_message_before_save uid now record (Some o) s = (inr saved, s') ->
     t_message_history s' =
       (t_message_history s ++ [MessageHistory.mk o])%list /\
     t_message s' = t_message s) /\
  (forall uid1 now1 ts1 uid2 now2 ts2 id r1 r2 m0 m1 m2 s0 s1 s2,
     Message._id r1 = id -> Message._id r2 = id ->
     Message_fetch_one id s0 = (inr (Some m0), s0) ->
     record_save uid1 now1 ts1 r1 s0 = (inr m1, s1) ->
     record_save uid2 now2 ts2 r2 s1 = (inr m2, s2) ->
     Message_fetch_one id s1 = (inr (Some m1), s1) /\
     Message.body m1 = Message.body r1 /\
     Message.revision m1 = Message.revision r1 /\
     t_message_history s1 =
       (t_message_history s0 ++ [MessageHistory.mk m0])%list /\
     t_message_history s2 =
       (t_message_history s0 ++
        [MessageHistory.mk m0; MessageHistory.mk m1])%list).
Proof.
  split; [|split; [|split]].
  - intros uid now record s.
    destruct (handle_message_before_save uid now record None s)
      as [r s'] eqn:Hb.
    apply before_save_history in Hb. exact Hb.
  - intros uid now ts record s Hf. apply fetch_one_find in Hf.
    apply record_save_create_history, Hf.
  - intros uid now record o saved s s' Hb. split.
    + apply before_save_history in Hb. exact Hb.
    + apply (before_save_frame _ _ _ _ _ _ _ Hb).
  - intros uid1 now1 ts1 uid2 now2 ts2 id r1 r2 m0 m1 m2 s0 s1 s2
           Hr1 Hr2 Hf E1 E2.
    apply fetch_one_find in Hf. rewrite <- Hr1 in Hf.
    destruct (record_save_edit_history _ _ _ _ _ _ _ _ Hf E1)
      as (Hh1 & Hf1 & Hid1 & Hb1 & Hrev1).
    rewrite Hr1, <- Hr2 in Hf1.
    destruct (record_save_edit_history _ _ _ _ _ _ _ _ Hf1 E2)
      as (Hh2 & _).
    repeat split; auto.
    + apply fetch_one_find. rewrite <- Hr2. exact Hf1.
    + rewrite Hh2, Hh1, <- app_assoc. reflexivity.
Qed.

Lemma C9_witness :
  t_message_history
    (snd (record_save "bob" 20 21 second_edit_of_m1
            (snd (record_save "alice" 10 11 edit_of_m1 db_two_messages)))) =
  [MessageHistory.mk (msg "m1" "c1" 1 "hello");
   MessageHistory.mk (stamped "alice" 10 ["alice"; "bob"] edit_of_m1)].
Proof.
  destruct C9_history_snapshot_on_edit as (_ & _ & _ & H).
  apply (H "alice" 10%Z 11%Z "bob" 20%Z 21%Z "m1" edit_of_m1 second_edit_of_m1
           (msg "m1" "c1" 1 "hello")
           (stamped "alice" 10 ["alice"; "bob"] edit_of_m1)
           (stamped "bob" 20 ["alice"; "bob"] second_edit_of_m1)
           db_two_messages
           (snd (record_save "alice" 10 11 edit_of_m1 db_two_messages))
           (snd (record_save "bob" 20 21 second_edit_of_m1
                   (snd (record_save "alice" 10 11 edit_of_m1
                           db_two_messages)))));
    reflexivity.
Defined.

(** ** C1 *)

(** What the query computes: the replacement is a non-deleted row with the
    greatest sequence number below the deleted message's, taken among the
    rows of every conversation. *)
Lemma get_new_last_message_id_spec (message : Message.t) (s : db) :
  exists row,
    _get_new_last_message_id message s = (inr (option_map Message._id row), s)
    /\ is_new_last_message (t_message s) (Message.seq message) row.
Proof.
  exists (fetchone (sql_select_new_last_message (Message.seq message) s)).
  split.
  - unfold _get_new_last_message_id, bind, query, ret.
    destruct (fetchone _); reflexivity.
  - apply select_new_last_message_spec.
Qed.

(** C1. The code selects a replacement from another conversation: with
    [mA] (sequence 1) in conversation [c1] and [mB] (sequence 2) alone in
    conversation [c2], the replacement computed for [mB] is [mA], and
    deleting [mB] writes a reference to [mA] into conversation [c2] and
    into the read pointers of the members of [c2]. *)
Theorem C1_replacement_crosses_conversations :
  _get_new_last_message_id (msg "mB" "c2" 2 "in c2") db_two_conversations =
    (inr (Some "mA"), db_two_conversations) /\
  Message_fetch_one "mA" db_two_conversations =
    (inr (Some (msg "mA" "c1" 1 "in c1")), db_two_conversations) /\
  Message.conversation (msg "mA" "c1" 1 "in c1") <>
  Message.conversation (msg "mB" "c2" 2 "in c2") /\
  (forall m, In m (t_message db_two_conversations) ->
             Message.conversation m = "c2" -> Message._id m = "mB") /\
  exists record s',
    delete_message "alice" 10 11 "mB" db_two_conversations = (inr record, s')
    /\ t_conversation s' =
       [Conversation.mk "c1" (Some "mA") ["alice"; "bob"];
        Conversation.mk "c2" (Some "message/mA") ["alice"; "carol"]]
    /\ t_user_conversation s' =
       [UserConversation.mk "alice" "c1" 0 (Some "mA") 0;
        UserConversation.mk "bob" "c1" 0 (Some "mA") 0;
        UserConversation.mk "alice" "c2" 0 (Some "mA") 0;
        UserConversation.mk "carol" "c2" 1 (Some "mA") 0].
Proof.
  split; [reflexivity|]. split; [reflexivity|]. split; [discriminate|].
  split.
  - intros m [<-|[<-|[]]]; cbn; [discriminate|reflexivity].
  - eexists. eexists. split; [vm_compute; reflexivity|].
    split; reflexivity.
Qed.

(** ** C3 *)

(** C3. Deleting the only message of a conversation, which is its last
    message, does not complete: the replacement is [None], building the
    reference ['message/' + None] raises [TypeError], and the
    conversation's [last_message] still names the deleted message. *)
Theorem C3_delete_of_only_message_raises :
  Message_fetch_one "m1" db_one_message =
    (inr (Some (msg "m1" "c1" 1 "hello")), db_one_message) /\
  _get_new_last_message_id (msg "m1" "c1" 1 "hello") db_one_message =
    (inr None, db_one_message) /\
  exists s',
    delete_message "alice" 10 11 "m1" db_one_message = (inl TypeError, s') /\
    t_conversation s' = [Conversation.mk "c1" (Some "m1") ["alice"; "bob"]].
Proof.
  split; [reflexivity|]. split; [reflexivity|].
  eexists. split; [vm_compute; reflexivity|reflexivity].
Qed.

(** ** C4 *)

(** C4, as stated, fails: the delete of the only message of a conversation
    fails inside the transaction, and the message is left soft-deleted
    although the operation raised. *)
Lemma C4_counterexample :
  exists m' s',
    delete_message "alice" 10 11 "m1" db_one_message = (inl TypeError, s') /\
    Message_fetch_one "m1" db_one_message =
      (inr (Some (msg "m1" "c1" 1 "hello")), db_one_message) /\
    Message.deleted (msg "m1" "c1" 1 "hello") = false /\
    Message_fetch_one "m1" s' = (inr (Some m'), s') /\
    Message.deleted m' = true /\
    t_message s' <> t_message db_one_message.
Proof.
  eexists. eexists. split; [vm_compute; reflexivity|].
  repeat split; try reflexivity. discriminate.
Qed.

(** C4 (amended). A delete that fails leaves every conversation's
    [last_message] and every [user_conversation] row as they were: the two
    pointer updates run in one transaction, all or nothing.  The
    soft-delete is saved before that transaction opens: the message table
    is unchanged when the failure comes from loading or saving the
    message, that is when the message is not found, is already deleted,
    the actor is not in the conversation, or the conversation is not
    found. *)
Theorem C4_failed_delete_frame (uid : string) (now ts : Z)
    (message_id : string) (s s' : db) (e : exn) :
  delete_message uid now ts message_id s = (inl e, s') ->
  t_conversation s' = t_conversation s /\
  t_user_conversation s' = t_user_conversation s /\
  (e = MessageNotFoundException \/ e = AlreadyDeletedException \/
   e = NotInConversationException \/ e = ConversationNotFoundException ->
   t_message s' = t_message s).
Proof.
  rewrite delete_message_run.
  destruct (find (fun m => Message._id m =? message_id) (t_message s))
    as [m|] eqn:Hm.
  2: { intros [= <- <-]. auto. }
  cbv zeta.
  destruct (find_by_id _ _ _ Hm) as [Hid _].
  assert (Ho : find (fun x => Message._id x
                              =? Message._id (Message.set_deleted true m))
                    (t_message s) = Some m).
  { cbn. rewrite Hid. exact Hm. }
  destruct (record_save uid now ts (Message.set_deleted true m) s)
    as [[e1|sv] s1] eqn:E.
  - destruct (record_save_edit_frame _ _ _ _ _ _ _ _ Ho E) as (H1 & H2 & H3).
    intros [= <- <-]. auto.
  - destruct (record_save_edit_frame _ _ _ _ _ _ _ _ Ho E) as (H1 & H2 & H3).
    destruct (with_db_conn _ s1) as [[e2|u] s2] eqn:T; [|discriminate].
    destruct (delete_transaction_frame _ _ _ _ _ T) as (_ & _ & He & Hs).
    intros [= <- <-]. subst s2. repeat split; auto.
    intros [Hx|[Hx|[Hx|Hx]]]; destruct He as [He|He]; congruence.
Qed.

Lemma C4_witness :
  t_conversation (snd (delete_message "alice" 10 11 "m1" db_one_message)) =
    t_conversation db_one_message /\
  t_user_conversation
    (snd (delete_message "alice" 10 11 "m1" db_one_message)) =
    t_user_conversation db_one_message.
Proof.
  destruct (C4_failed_delete_frame "alice" 10 11 "m1" db_one_message
              (snd (delete_message "alice" 10 11 "m1" db_one_message))
              TypeError) as (H1 & H2 & _).
  - vm_compute. reflexivity.
  - split; assumption.
Defined.

(** ** Set-based updates, row by row *)

Lemma Forall2_map_self {A : Type} (P : A -> A -> Prop) (f : A -> A)
    (l : list A) :
  (forall x, In x l -> P x (f x)) -> Forall2 P l (map f l).
Proof.
  induction l as [|x t IH]; cbn; intros H; constructor.
  - apply H. auto.
  - apply IH. intros y Hy. apply H. auto.
Qed.

Lemma bump_unread_count_rows (ts : Z) (conversation_id user_id : string)
    (s : db) :
  Forall2
    (fun uc uc' =>
       (UserConversation.conversation uc = conversation_id ->
        UserConversation.user uc <> user_id ->
        uc' = UserConversation.mk
                (UserConversation.user uc)
                (UserConversation.conversation uc)
                (UserConversation.unread_count uc + 1)
                (UserConversation.last_read_message uc)
                ts) /\
       (UserConversation.conversation uc <> conversation_id \/
        UserConversation.user uc = user_id -> uc' = uc))
    (t_user_conversation s)
    (t_user_conversation
       (sql_bump_unread_count ts conversation_id user_id s)).
Proof.
  cbn. apply Forall2_map_self. intros uc _.
  destruct (String.eqb_spec (UserConversation.conversation uc)
                            conversation_id);
    destruct (String.eqb_spec (UserConversation.user uc) user_id);
    cbn; split; intros; tauto || congruence.
Qed.

(** A successful delete, step by step: the message is found, its
    soft-deleted copy is saved as an edit, and the transaction runs on the
    database the save produced. *)
Lemma delete_message_success (uid : string) (now ts : Z)
    (message_id : string) (record : Message.t) (s s' : db) :
  delete_message uid now ts message_id s = (inr record, s') ->
  exists m sv s1 c,
    find (fun x => Message._id x =? message_id) (t_message s) = Some m /\
    record = Message.set_deleted true m /\
    Message._id record = message_id /\
    record_save uid now ts record s = (inr sv, s1) /\
    t_conversation s1 = t_conversation s /\
    t_user_conversation s1 = t_user_conversation s /\
    find (fun c => Conversation._id c =? Message.conversation record)
         (t_conversation s) = Some c /\
    with_db_conn
      (bind (_get_new_last_message_id record) (fun new_last_message_id =>
       bind (_update_conversation_last_message (Some c) record
                                                new_last_message_id) (fun _ =>
       _update_user_conversation_last_read_message record
                                                   new_last_message_id))) s1
    = (inr tt, s').
Proof.
  rewrite delete_message_run.
  destruct (find (fun m => Message._id m =? message_id) (t_message s))
    as [m|] eqn:Hm; [|discriminate].
  cbv zeta.
  destruct (find_by_id _ _ _ Hm) as [Hid _].
  assert (Ho : find (fun x => Message._id x
                              =? Message._id (Message.set_deleted true m))
                    (t_message s) = Some m).
  { cbn. rewrite Hid. exact Hm. }
  destruct (record_save uid now ts (Message.set_deleted true m) s)
    as [[e1|sv] s1] eqn:E; [discriminate|].
  destruct (record_save_edit_frame _ _ _ _ _ _ _ _ Ho E) as (H1 & H2 & _).
  assert (Hc : exists c,
             find (fun c => Conversation._id c
                            =? Message.conversation (Message.set_deleted true m))
                  (t_conversation s) = Some c).
  { revert E. rewrite record_save_run. cbv zeta. rewrite Ho.
    destruct (handle_message_before_save uid now _ (Some m) s)
      as [[e|sv'] s1'] eqn:Hb; [discriminate|].
    intros _. apply (before_save_keeps _ _ _ _ _ _ _ Hb). }
  destruct Hc as [c Hc]. rewrite H1, Hc.
  destruct (with_db_conn _ s1) as [[e2|[]] s2] eqn:T; [discriminate|].
  intros [= <- <-].
  exists m, sv, s1, c. repeat split; auto.
Qed.

(** ** The two pointer updates, field by field *)

Lemma repoint_last_read_message_fields (new : option string) (old : string)
    (s : db) :
  Forall2
    (fun uc uc' =>
       UserConversation.user uc' = UserConversation.user uc /\
       UserConversation.conversation uc' = UserConversation.conversation uc /\
       UserConversation.unread_count uc' = UserConversation.unread_count uc /\
       UserConversation._updated_at uc' = UserConversation._updated_at uc /\
       (UserConversation.last_read_message uc = Some old ->
        UserConversation.last_read_message uc' = new) /\
       (UserConversation.last_read_message uc <> Some old ->
        UserConversation.last_read_message uc' =
        UserConversation.last_read_message uc))
    (t_user_conversation s)
    (t_user_conversation (sql_repoint_last_read_message new old s)).
Proof.
  cbn. apply Forall2_map_self. intros uc _.
  destruct (UserConversation.last_read_message uc) as [k|] eqn:E.
  - destruct (String.eqb_spec k old) as [->|Hne]; cbn;
      repeat split; auto; congruence.
  - rewrite E. repeat split; auto; congruence.
Qed.

Lemma set_last_message_fields (conversation_id : string)
    (value : option string) (s : db) :
  Forall2
    (fun c c' =>
       Conversation._id c' = Conversation._id c /\
       Conversation.message_acl c' = Conversation.message_acl c /\
       (Conversation._id c = conversation_id ->
        Conversation.last_message c' = value) /\
       (Conversation._id c <> conversation_id ->
        Conversation.last_message c' = Conversation.last_message c))
    (t_conversation s)
    (t_conversation (sql_set_last_message conversation_id value s)).
Proof.
  cbn. apply Forall2_map_self. intros c _.
  destruct (String.eqb_spec (Conversation._id c) conversation_id);
    cbn; repeat split; auto; congruence.
Qed.

(** ** C6 *)

(** C6. The read pointers receive a message of another conversation:
    [mB] is the only message of conversation [c2], so its replacement in
    [c2] is null, yet after alice has deleted [mB] the read pointers of
    the two members of [c2] name [mA], a message of conversation [c1].
    The defect is the one of C1: the replacement query has no conversation
    filter. *)
Theorem C6_read_pointers_cross_conversations :
  (forall m, In m (t_message db_two_conversations) ->
             Message.conversation m = "c2" -> Message._id m = "mB") /\
  map (fun uc => (UserConversation.user uc,
                  UserConversation.conversation uc,
                  UserConversation.last_read_message uc))
      (t_user_conversation db_two_conversations) =
    [("alice", "c1", Some "mA"); ("bob", "c1", Some "mA");
     ("alice", "c2", Some "mB"); ("carol", "c2", Some "mB")] /\
  exists record s',
    delete_message "alice" 10 11 "mB" db_two_conversations = (inr record, s')
    /\
    map (fun uc => (UserConversation.user uc,
                    UserConversation.conversation uc,
                    UserConversation.last_read_message uc))
        (t_user_conversation s') =
      [("alice", "c1", Some "mA"); ("bob", "c1", Some "mA");
       ("alice", "c2", Some "mA"); ("carol", "c2", Some "mA")] /\
    exists m,
      Message_fetch_one "mA" s' = (inr (Some m), s') /\
      Message.conversation m = "c1".
Proof.
  split.
  - intros m [<-|[<-|[]]]; cbn; [discriminate|reflexivity].
  - split; [reflexivity|].
    eexists. eexists. split; [vm_compute; reflexivity|].
    split; [reflexivity|].
    eexists. split; reflexivity.
Qed.

(** ** C7 *)

(** C7. The value written into [last_message] is not a pointer to the
    replacement.  Deleting [m2], the last message of [c1], writes the text
    ['message/m1'] where the creation path writes, and the test of the
    function itself reads, the bare key: no message has that id, while the
    replacement [m1] is there under its key.  Deleting [m1] next then
    finds that the conversation's pointer is not [m1] and leaves it as it
    is, although [m1] is now deleted and no message is left. *)
Theorem C7_last_message_is_not_a_pointer :
  map Conversation.last_message (t_conversation db_two_messages) =
    [Some "m2"] /\
  exists r2 s2 r1 s1,
    delete_message "alice" 10 11 "m2" db_two_messages = (inr r2, s2) /\
    map Conversation.last_message (t_conversation s2) =
      [Some "message/m1"] /\
    map Conversation.last_message (t_conversation s2) <> [Some "m1"] /\
    Message_fetch_one "message/m1" s2 = (inr None, s2) /\
    fst (Message_fetch_one "m1" s2) = inr (Some (msg "m1" "c1" 1 "hello")) /\
    delete_message "alice" 20 21 "m1" s2 = (inr r1, s1) /\
    map Conversation.last_message (t_conversation s1) =
      [Some "message/m1"] /\
    map Message.deleted (t_message s1) = [true; true].
Proof.
  split; [reflexivity|].
  eexists. eexists. eexists. eexists.
  split; [vm_compute; reflexivity|].
  split; [reflexivity|]. split; [discriminate|].
  split; [reflexivity|]. split; [reflexivity|].
  split; [vm_compute; reflexivity|].
  split; reflexivity.
Qed.

(** ** C8 *)

(** The after-save hook on a creation: one event, the unread bump, the
    pointer. *)
Lemma after_save_create_run (uid : string) (ts : Z) (record : Message.t)
    (s : db) :
  handle_message_after_save uid ts record None s =
  (inr tt,
   sql_set_last_message (Message.conversation record)
     (Some (Message._id record))
     (sql_bump_unread_count ts (Message.conversation record) uid
        (with_notified
           (notified s ++
            [(Message.conversation record,
              if Message.deleted record then "delete" else "create",
              Message._id record)])%list s))).
Proof. reflexivity. Qed.

Lemma find_append_new (id : string) (x : Message.t) (l : list Message.t) :
  find (fun y => Message._id y =? id) l = None ->
  Message._id x = id ->
  find (fun y => Message._id y =? id) (l ++ [x]) = Some x.
Proof.
  intros Hn Hx. induction l as [|y t IH]; cbn in *.
  - rewrite Hx, String.eqb_refl. reflexivity.
  - destruct (Message._id y =? id); [discriminate|auto].
Qed.

(** C8. A successful creation stores the message with revision 1 and not
    deleted, adds 1 to the [unread_count] of exactly the
    [user_conversation] rows of the message's conversation whose user is
    not the author, leaves the author's rows and the rows of every other
    conversation as they were, and sets the [last_message] of the
    message's conversation, and of no other, to the new message. *)
Theorem C8_create_bumps_unread_and_sets_last (uid : string) (now ts : Z)
    (record stored : Message.t) (s s' : db) :
  Message_fetch_one (Message._id record) s = (inr None, s) ->
  record_save uid now ts record s = (inr stored, s') ->
  Message._id stored = Message._id record /\
  Message.conversation stored = Message.conversation record /\
  Message.revision stored = 1%Z /\
  Message.deleted stored = false /\
  Message_fetch_one (Message._id stored) s' = (inr (Some stored), s') /\
  Forall2
    (fun uc uc' =>
       (UserConversation.conversation uc = Message.conversation record ->
        UserConversation.user uc <> uid ->
        uc' = UserConversation.mk
                (UserConversation.user uc)
                (UserConversation.conversation uc)
                (UserConversation.unread_count uc + 1)
                (UserConversation.last_read_message uc)
                ts) /\
       (UserConversation.conversation uc <> Message.conversation record \/
        UserConversation.user uc = uid -> uc' = uc))
    (t_user_conversation s) (t_user_conversation s') /\
  Forall2
    (fun c c' =>
       Conversation._id c' = Conversation._id c /\
       Conversation.message_acl c' = Conversation.message_acl c /\
       (Conversation._id c = Message.conversation record ->
        Conversation.last_message c' = Some (Message._id stored)) /\
       (Conversation._id c <> Message.conversation record ->
        Conversation.last_message c' = Conversation.last_message c))
    (t_conversation s) (t_conversation s').
Proof.
  intros Hf. apply fetch_one_find in Hf.
  rewrite record_save_run. cbv zeta. rewrite Hf.
  destruct (handle_message_before_save uid now record None s)
    as [[e|saved] s1] eqn:Hb; [discriminate|].
  destruct (before_save_frame _ _ _ _ _ _ _ Hb) as (H1 & H2 & H3 & _).
  destruct (before_save_keeps _ _ _ _ _ _ _ Hb) as (Hid & Hcv & _).
  assert (Hrd : Message.revision saved = 1%Z /\ Message.deleted saved = false).
  { revert Hb. rewrite before_save_run.
    destruct (fst _) as [e|[uc|]]; try discriminate.
    destruct (find _ (t_conversation s)) as [c|]; [|discriminate].
    intros [= <- _].
    destruct (stamped_id uid now (Conversation.message_acl c)
                (Message.set_revision 1 (Message.set_deleted false record)))
      as (_ & _ & _ & _ & -> & ->).
    split; reflexivity. }
  destruct Hrd as [Hrev Hdel].
  intros [= <- <-].
  split; [exact Hid|]. split; [exact Hcv|].
  split; [exact Hrev|]. split; [exact Hdel|].
  split; [|split].
  - apply fetch_one_find. cbn. rewrite H1.
    apply find_append_new; [rewrite Hid; exact Hf|reflexivity].
  - rewrite <- H3, <- Hcv.
    exact (bump_unread_count_rows ts (Message.conversation saved) uid s1).
  - rewrite <- H2, <- Hcv.
    exact (set_last_message_fields (Message.conversation saved)
             (Some (Message._id saved)) s1).
Qed.

Lemma C8_witness :
  Message_fetch_one "m3" db_after_create_m3 =
    (inr (Some stored_m3), db_after_create_m3) /\
  Forall2
    (fun uc uc' =>
       (UserConversation.conversation uc = "c1" ->
        UserConversation.user uc <> "alice" ->
        uc' = UserConversation.mk
                (UserConversation.user uc)
                (UserConversation.conversation uc)
                (UserConversation.unread_count uc + 1)
                (UserConversation.last_read_message uc)
                11) /\
       (UserConversation.conversation uc <> "c1" \/
        UserConversation.user uc = "alice" -> uc' = uc))
    (t_user_conversation db_two_messages)
    (t_user_conversation db_after_create_m3) /\
  Forall2
    (fun c c' =>
       Conversation._id c' = Conversation._id c /\
       Conversation.message_acl c' = Conversation.message_acl c /\
       (Conversation._id c = "c1" ->
        Conversation.last_message c' = Some "m3") /\
       (Conversation._id c <> "c1" ->
        Conversation.last_message c' = Conversation.last_message c))
    (t_conversation db_two_messages)
    (t_conversation db_after_create_m3).
Proof.
  apply (C8_create_bumps_unread_and_sets_last "alice" 10 11 new_m3 stored_m3
           db_two_messages db_after_create_m3).
  - reflexivity.
  - vm_compute. reflexivity.
Defined.

(** * Further properties of the handlers *)

(** ** The before-save hook *)

Lemma user_conversation_fetch_one_run (uid conversation_id : string)
    (s : db) :
  UserConversation_fetch_one uid conversation_id s =
  (inr (find (fun uc =>
                (UserConversation.user uc =? uid)
                && (UserConversation.conversation uc =? conversation_id))
             (t_user_conversation s)), s).
Proof. reflexivity. Qed.

Lemma conversation_fetch_one_run (conversation_id : string) (s : db) :
  Conversation_fetch_one conversation_id s =
  (inr (find (fun c => Conversation._id c =? conversation_id)
             (t_conversation s)), s).
Proof. reflexivity. Qed.

(** When the hook lets a record through. *)
Lemma before_save_succeeds_iff_helper (uid : string) (now : Z)
    (record : Message.t) (original : option Message.t) (s : db) :
  (exists saved s',
     handle_message_before_save uid now record original s = (inr saved, s'))
  <->
  match original with
  | Some o => Message.deleted o = false
  | None => True
  end /\
  (exists uc,
     UserConversation_fetch_one uid (Message.conversation record) s =
     (inr (Some uc), s)) /\
  (exists c,
     Conversation_fetch_one (Message.conversation record) s =
     (inr (Some c), s)).
Proof.
  rewrite before_save_run, user_conversation_fetch_one_run,
    conversation_fetch_one_run. cbn [fst].
  destruct (find _ (t_user_conversation s)) as [uc|];
    destruct (find _ (t_conversation s)) as [c|];
    destruct original as [o|]; try destruct (Message.deleted o); split.
  all: try (intros (saved & s' & H); discriminate H).
  all: try (intros (Hd & (uc' & Hu) & (c' & Hc)); discriminate).
  all: try (intros _; repeat split; eauto; fail).
  all: intros _; eauto.
Qed.

(** X1. The before-save hook lets a record through exactly when the
    stored message, if there is one, is not deleted, the actor has a
    membership row for the record's conversation, and that conversation
    exists. *)
Theorem before_save_succeeds_iff (uid : string) (now : Z)
    (record : Message.t) (original : option Message.t) (s : db) :
  (exists saved s',
     handle_message_before_save uid now record original s = (inr saved, s'))
  <->
  match original with
  | Some o => Message.deleted o = false
  | None => True
  end /\
  (exists uc,
     UserConversation_fetch_one uid (Message.conversation record) s =
     (inr (Some uc), s)) /\
  (exists c,
     Conversation_fetch_one (Message.conversation record) s =
     (inr (Some c), s)).
Proof. apply before_save_succeeds_iff_helper. Qed.

(** The exceptions of the hook, case by case. *)
Lemma before_save_errors (uid : string) (now : Z)
    (record : Message.t) (original : option Message.t) (s s' : db)
    (e : exn) :
  handle_message_before_save uid now record original s = (inl e, s') ->
  (e = AlreadyDeletedException /\ s' = s /\
   exists o, original = Some o /\ Message.deleted o = true) \/
  (e = NotInConversationException /\ s' = s /\
   match original with
   | Some o => Message.deleted o = false
   | None => True
   end /\
   UserConversation_fetch_one uid (Message.conversation record) s =
   (inr None, s)) \/
  (e = ConversationNotFoundException /\
   match original with
   | Some o => Message.deleted o = false
   | None => True
   end /\
   (exists uc,
      UserConversation_fetch_one uid (Message.conversation record) s =
      (inr (Some uc), s)) /\
   Conversation_fetch_one (Message.conversation record) s = (inr None, s)).
Proof.
  rewrite before_save_run, user_conversation_fetch_one_run,
    conversation_fetch_one_run. cbn [fst].
  destruct original as [o|].
  - destruct (Message.deleted o) eqn:Hd.
    { intros [= <- <-]. left. eauto. }
    destruct (find _ (t_user_conversation s)) as [uc|].
    + destruct (find _ (t_conversation s)) as [c|]; [discriminate|].
      intros [= <- <-]. right. right. eauto 10.
    + intros [= <- <-]. right. left. auto.
  - destruct (find _ (t_user_conversation s)) as [uc|].
    + destruct (find _ (t_conversation s)) as [c|]; [discriminate|].
      intros [= <- <-]. right. right. eauto 10.
    + intros [= <- <-]. right. left. auto.
Qed.

(** X2. The hook raises nothing but [AlreadyDeletedException],
    [NotInConversationException] and [ConversationNotFoundException], in
    that order of precedence: a deleted original wins over a missing
    membership, which wins over a missing conversation.  The first two
    leave the database as it was. *)
Theorem before_save_error_precedence (uid : string) (now : Z)
    (record : Message.t) (original : option Message.t) (s s' : db)
    (e : exn) :
  handle_message_before_save uid now record original s = (inl e, s') ->
  (e = AlreadyDeletedException /\ s' = s /\
   exists o, original = Some o /\ Message.deleted o = true) \/
  (e = NotInConversationException /\ s' = s /\
   match original with
   | Some o => Message.deleted o = false
   | None => True
   end /\
   UserConversation_fetch_one uid (Message.conversation record) s =
   (inr None, s)) \/
  (e = ConversationNotFoundException /\
   match original with
   | Some o => Message.deleted o = false
   | None => True
   end /\
   (exists uc,
      UserConversation_fetch_one uid (Message.conversation record) s =
      (inr (Some uc), s)) /\
   Conversation_fetch_one (Message.conversation record) s = (inr None, s)).
Proof. apply before_save_errors. Qed.

Lemma before_save_error_precedence_witness :
  (AlreadyDeletedException = AlreadyDeletedException /\
   db_deleted_message = db_deleted_message /\
   exists o, Some deleted_m1 = Some o /\ Message.deleted o = true) \/
  (AlreadyDeletedException = NotInConversationException /\
   db_deleted_message = db_deleted_message /\
   Message.deleted deleted_m1 = false /\
   UserConversation_fetch_one "alice" (Message.conversation edit_of_m1)
     db_deleted_message = (inr None, db_deleted_message)) \/
  (AlreadyDeletedException = ConversationNotFoundException /\
   Message.deleted deleted_m1 = false /\
   (exists uc,
      UserConversation_fetch_one "alice" (Message.conversation edit_of_m1)
        db_deleted_message = (inr (Some uc), db_deleted_message)) /\
   Conversation_fetch_one (Message.conversation edit_of_m1)
     db_deleted_message = (inr None, db_deleted_message)).
Proof.
  apply (before_save_error_precedence "alice" 10 edit_of_m1
           (Some deleted_m1) db_deleted_message db_deleted_message
           AlreadyDeletedException).
  reflexivity.
Defined.

(** The fields of a record the hook let through. *)
Lemma before_save_fields (uid : string) (now : Z)
    (record saved : Message.t) (original : option Message.t) (s s' : db) :
  handle_message_before_save uid now record original s = (inr saved, s') ->
  Message._id saved = Message._id record /\
  Message.conversation saved = Message.conversation record /\
  Message.seq saved = Message.seq record /\
  Message.body saved = Message.body record /\
  Message.edited_at saved = Some now /\
  Message.edited_by saved = Some uid /\
  Message.message_status saved =
    match Message.message_status record with
    | None => Some "delivered"
    | Some status => Some status
    end /\
  Message.deleted saved =
    match original with
    | None => false
    | Some _ => Message.deleted record
    end /\
  exists c,
    Conversation_fetch_one (Message.conversation record) s =
      (inr (Some c), s) /\
    Message._acl saved = Conversation.message_acl c.
Proof.
  rewrite before_save_run, conversation_fetch_one_run.
  assert (Hst : forall acl m,
            Message.edited_at (stamped uid now acl m) = Some now /\
            Message.edited_by (stamped uid now acl m) = Some uid /\
            Message.message_status (stamped uid now acl m) =
              match Message.message_status m with
              | None => Some "delivered"
              | Some status => Some status
              end /\
            Message._acl (stamped uid now acl m) = acl).
  { intros acl [i cv q b d r ea eb [st|] a]; cbn; auto. }
  destruct original as [o|].
  - destruct (Message.deleted o); [discriminate|].
    destruct (fst _) as [e|[uc|]]; try discriminate.
    destruct (find _ (t_conversation s)) as [c|]; [|discriminate].
    intros [= <- <-].
    destruct (stamped_id uid now (Conversation.message_acl c) record)
      as (H1 & H2 & H3 & H4 & H5 & _).
    destruct (Hst (Conversation.message_acl c) record)
      as (H6 & H7 & H8 & H9).
    repeat split; auto. exists c. auto.
  - destruct (fst _) as [e|[uc|]]; try discriminate.
    destruct (find _ (t_conversation s)) as [c|]; [|discriminate].
    intros [= <- <-].
    destruct (stamped_id uid now (Conversation.message_acl c)
                (Message.set_revision 1 (Message.set_deleted false record)))
      as (H1 & H2 & H3 & H4 & H5 & _).
    destruct (Hst (Conversation.message_acl c)
                (Message.set_revision 1 (Message.set_deleted false record)))
      as (H6 & H7 & H8 & H9).
    cbn in *. repeat split; auto. exists c. auto.
Qed.

(** X3. What the hook returns on success: the record's id, conversation,
    sequence number and body untouched; [edited_at] and [edited_by] set to
    the clock and the actor; a [message_status] that is never unset,
    ['delivered'] when the record had none; the ACL of the conversation;
    and a [deleted] flag forced to [false] on creation and kept as
    submitted on an edit. *)
Theorem before_save_stamps (uid : string) (now : Z)
    (record saved : Message.t) (original : option Message.t) (s s' : db) :
  handle_message_before_save uid now record original s = (inr saved, s') ->
  Message._id saved = Message._id record /\
  Message.conversation saved = Message.conversation record /\
  Message.seq saved = Message.seq record /\
  Message.body saved = Message.body record /\
  Message.edited_at saved = Some now /\
  Message.edited_by saved = Some uid /\
  Message.message_status saved =
    match Message.message_status record with
    | None => Some "delivered"
    | Some status => Some status
    end /\
  Message.deleted saved =
    match original with
    | None => false
    | Some _ => Message.deleted record
    end /\
  exists c,
    Conversation_fetch_one (Message.conversation record) s =
      (inr (Some c), s) /\
    Message._acl saved = Conversation.message_acl c.
Proof. apply before_save_fields. Qed.

Lemma before_save_stamps_witness :
  Message.deleted
    (stamped "alice" 10 ["alice"; "bob"]
       (Message.set_revision 1 (Message.set_deleted false new_m3))) = false
  /\
  Message.message_status
    (stamped "alice" 10 ["alice"; "bob"]
       (Message.set_revision 1 (Message.set_deleted false new_m3))) =
  Some "delivered".
Proof.
  destruct (before_save_stamps "alice" 10 new_m3
              (stamped "alice" 10 ["alice"; "bob"]
                 (Message.set_revision 1 (Message.set_deleted false new_m3)))
              None db_two_messages db_two_messages)
    as (_ & _ & _ & _ & _ & _ & Hstatus & Hdeleted & _).
  - reflexivity.
  - split; [exact Hdeleted|exact Hstatus].
Defined.

(** X4. Whatever its outcome, the hook writes nothing but history: the
    message, conversation and membership tables, the sequence and the
    notifications are as before, and the archive is either unchanged or
    longer by the one snapshot of the original. *)
Theorem before_save_writes_only_history (uid : string) (now : Z)
    (record : Message.t) (original : option Message.t) (s : db) :
  let s' := snd (handle_message_before_save uid now record original s) in
  t_message s' = t_message s /\
  t_conversation s' = t_conversation s /\
  t_user_conversation s' = t_user_conversation s /\
  message_seq s' = message_seq s /\
  notified s' = notified s /\
  (t_message_history s' = t_message_history s \/
   exists o, original = Some o /\
             t_message_history s' =
             (t_message_history s ++ [MessageHistory.mk o])%list).
Proof.
  cbv zeta.
  destruct (handle_message_before_save uid now record original s)
    as [r s'] eqn:Hb. cbn [snd].
  destruct (before_save_frame _ _ _ _ _ _ _ Hb) as (H1 & H2 & H3 & H4 & H5).
  repeat split; auto.
  revert Hb. rewrite before_save_run.
  destruct original as [o|].
  - destruct (Message.deleted o).
    { intros [= _ <-]. auto. }
    destruct (fst _) as [e|[uc|]].
    2: destruct (find _ (t_conversation s)).
    all: intros [= _ <-]; cbn; eauto.
  - destruct (fst _) as [e|[uc|]].
    2: destruct (find _ (t_conversation s)).
    all: intros [= _ <-]; auto.
Qed.

(** ** The save pipeline *)

(** Every outcome of a delete, table by table. *)
Lemma delete_message_tables (uid : string) (now ts : Z)
    (message_id : string) (s : db) :
  let s' := snd (delete_message uid now ts message_id s) in
  (t_user_conversation s' = t_user_conversation s \/
   exists new,
     t_user_conversation s' =
     t_user_conversation (sql_repoint_last_read_message new message_id s)) /\
  (t_conversation s' = t_conversation s \/
   exists conversation_id value,
     t_conversation s' =
     t_conversation (sql_set_last_message conversation_id value s)) /\
  message_seq s' = message_seq s.
Proof.
  cbv zeta. rewrite delete_message_run.
  destruct (find (fun m => Message._id m =? message_id) (t_message s))
    as [m|] eqn:Hm; [|cbn; auto].
  cbv zeta.
  destruct (find_by_id _ _ _ Hm) as [Hid _].
  assert (Ho : find (fun x => Message._id x
                              =? Message._id (Message.set_deleted true m))
                    (t_message s) = Some m).
  { cbn. rewrite Hid. exact Hm. }
  destruct (record_save uid now ts (Message.set_deleted true m) s)
    as [[e1|sv] s1] eqn:E.
  - destruct (record_save_edit_frame _ _ _ _ _ _ _ _ Ho E) as (H1 & H2 & _).
    cbn. repeat split; auto.
    revert E. rewrite record_save_run. cbv zeta. rewrite Ho.
    destruct (handle_message_before_save uid now _ (Some m) s)
      as [[e|sv'] s1'] eqn:Hb; [|discriminate].
    intros [= _ <-]. apply (before_save_frame _ _ _ _ _ _ _ Hb).
  - destruct (record_save_edit_frame _ _ _ _ _ _ _ _ Ho E) as (H1 & H2 & _).
    assert (Hseq : message_seq s1 = message_seq s).
    { revert E. rewrite record_save_run. cbv zeta. rewrite Ho.
      destruct (handle_message_before_save uid now _ (Some m) s)
        as [[e|sv'] s1'] eqn:Hb; [discriminate|].
      intros [= _ <-]. cbn. apply (before_save_frame _ _ _ _ _ _ _ Hb). }
    rewrite delete_transaction_run. cbv zeta.
    cbn [Message._id Message.set_deleted]. rewrite Hid.
    destruct (find _ (t_conversation s1)) as [c|]; [|cbn; auto].
    destruct (Conversation.last_message c) as [k|].
    + destruct (message_id =? k).
      * destruct (option_map Message._id _) as [new|]; [|cbn; auto].
        cbn. rewrite H1, H2. repeat split; eauto.
      * cbn. rewrite H2. repeat split; eauto.
    + cbn. rewrite H2. repeat split; eauto.
Qed.

(** Every outcome of a save, table by table. *)
Lemma record_save_tables (uid : string) (now ts : Z) (record : Message.t)
    (s : db) :
  let s' := snd (record_save uid now ts record s) in
  (t_user_conversation s' = t_user_conversation s /\
   t_conversation s' = t_conversation s) \/
  (find (fun x => Message._id x =? Message._id record) (t_message s) = None /\
   t_user_conversation s' =
     t_user_conversation
       (sql_bump_unread_count ts (Message.conversation record) uid s) /\
   t_conversation s' =
     t_conversation
       (sql_set_last_message (Message.conversation record)
                             (Some (Message._id record)) s)).
Proof.
  cbv zeta. rewrite record_save_run. cbv zeta.
  destruct (handle_message_before_save uid now record _ s)
    as [[e|saved] s1] eqn:Hb;
    destruct (before_save_frame _ _ _ _ _ _ _ Hb) as (H1 & H2 & H3 & _).
  - cbn. auto.
  - destruct (before_save_keeps _ _ _ _ _ _ _ Hb) as (Hid & Hcv & _).
    destruct (find (fun x => Message._id x =? Message._id record)
                   (t_message s)) as [o|].
    + cbn. auto.
    + right. cbn. rewrite H2, H3, Hid, Hcv. auto.
Qed.

(** X5. An edit, successful or not, leaves the conversation and
    membership tables and the sequence as they were and keeps the number of
    messages: only a creation moves pointers and counters. *)
Theorem edit_leaves_pointers_alone (uid : string) (now ts : Z)
    (record o : Message.t) (s s' : db) (r : exn + Message.t) :
  Message_fetch_one (Message._id record) s = (inr (Some o), s) ->
  record_save uid now ts record s = (r, s') ->
  t_conversation s' = t_conversation s /\
  t_user_conversation s' = t_user_conversation s /\
  message_seq s' = message_seq s /\
  List.length (t_message s') = List.length (t_message s).
Proof.
  intros Hf E. apply fetch_one_find in Hf.
  destruct (record_save_edit_frame _ _ _ _ _ _ _ _ Hf E) as (H1 & H2 & H3).
  split; [exact H1|]. split; [exact H2|]. split.
  - revert E. rewrite record_save_run. cbv zeta. rewrite Hf.
    destruct (handle_message_before_save uid now record (Some o) s)
      as [[e|sv] s1] eqn:Hb; intros [= _ <-]; cbn;
      apply (before_save_frame _ _ _ _ _ _ _ Hb).
  - destruct r; rewrite H3; [reflexivity|]. apply length_map.
Qed.

Lemma edit_leaves_pointers_alone_witness :
  t_conversation
    (snd (record_save "alice" 10 11 edit_of_m1 db_two_messages)) =
    t_conversation db_two_messages /\
  t_user_conversation
    (snd (record_save "alice" 10 11 edit_of_m1 db_two_messages)) =
    t_user_conversation db_two_messages.
Proof.
  destruct (edit_leaves_pointers_alone "alice" 10 11 edit_of_m1
              (msg "m1" "c1" 1 "hello") db_two_messages
              (snd (record_save "alice" 10 11 edit_of_m1 db_two_messages))
              (fst (record_save "alice" 10 11 edit_of_m1 db_two_messages)))
    as (H1 & H2 & _).
  - reflexivity.
  - vm_compute. reflexivity.
  - split; assumption.
Defined.

(** The event log after a save. *)
Lemma record_save_notified (uid : string) (now ts : Z)
    (record : Message.t) (original : option Message.t) (s s' : db)
    (r : exn + Message.t) :
  Message_fetch_one (Message._id record) s = (inr original, s) ->
  record_save uid now ts record s = (r, s') ->
  notified s' =
  match r with
  | inl _ => notified s
  | inr _ =>
      (notified s ++
       [(Message.conversation record, event_of_save record original,
         Message._id record)])%list
  end.
Proof.
  intros Hf. apply fetch_one_find in Hf.
  rewrite record_save_run. cbv zeta. rewrite Hf.
  destruct (handle_message_before_save uid now record original s)
    as [[e|saved] s1] eqn:Hb.
  - intros [= <- <-]. apply (before_save_frame _ _ _ _ _ _ _ Hb).
  - destruct (before_save_frame _ _ _ _ _ _ _ Hb) as (_ & _ & _ & _ & Hn).
    destruct (before_save_fields _ _ _ _ _ _ _ Hb)
      as (Hid & Hcv & _ & _ & _ & _ & _ & Hdel & _).
    destruct original as [o|]; intros [= <- <-]; cbn.
    + rewrite Hn, Hid, Hcv, Hdel. reflexivity.
    + rewrite Hn, Hid, Hcv, Hdel. reflexivity.
Qed.

(** X6. A save announces exactly one event when it succeeds and none when
    it fails: ['create'] for a new message, whatever [deleted] flag the
    client submitted, and for a stored message ['delete'] when the
    submitted record is deleted, ['update'] otherwise. *)
Theorem save_notifies_once (uid : string) (now ts : Z)
    (record : Message.t) (original : option Message.t) (s s' : db)
    (r : exn + Message.t) :
  Message_fetch_one (Message._id record) s = (inr original, s) ->
  record_save uid now ts record s = (r, s') ->
  notified s' =
  match r with
  | inl _ => notified s
  | inr _ =>
      (notified s ++
       [(Message.conversation record, event_of_save record original,
         Message._id record)])%list
  end.
Proof. apply record_save_notified. Qed.

Lemma save_notifies_once_witness :
  notified (snd (record_save "alice" 10 11 new_m3 db_two_messages)) =
  [("c1", "create", "m3")].
Proof.
  apply (save_notifies_once "alice" 10 11 new_m3 None db_two_messages
           (snd (record_save "alice" 10 11 new_m3 db_two_messages))
           (inr stored_m3)).
  - reflexivity.
  - vm_compute. reflexivity.
Defined.

(** ** Counters and membership rows *)

Lemma bump_unread_count_total (ts : Z) (conversation_id user_id : string)
    (s : db) :
  total_unread
    (t_user_conversation
       (sql_bump_unread_count ts conversation_id user_id s)) =
  (total_unread (t_user_conversation s) +
   Z.of_nat (List.length
               (other_participants conversation_id user_id
                  (t_user_conversation s))))%Z.
Proof.
  unfold sql_bump_unread_count, with_user_conversation, other_participants,
    total_unread.
  cbn [t_user_conversation].
  induction (t_user_conversation s) as [|uc t IH]; [reflexivity|].
  cbn [map filter fold_right]. rewrite IH.
  destruct ((UserConversation.conversation uc =? conversation_id)
            && negb (UserConversation.user uc =? user_id)).
  - cbn [List.length UserConversation.unread_count]. lia.
  - lia.
Qed.

Lemma bump_unread_count_keeps (ts : Z) (conversation_id user_id : string)
    (s : db) :
  map membership
      (t_user_conversation
         (sql_bump_unread_count ts conversation_id user_id s)) =
    map membership (t_user_conversation s) /\
  map UserConversation.last_read_message
      (t_user_conversation
         (sql_bump_unread_count ts conversation_id user_id s)) =
    map UserConversation.last_read_message (t_user_conversation s) /\
  (Forall (fun uc => (0 <= UserConversation.unread_count uc)%Z)
          (t_user_conversation s) ->
   Forall (fun uc => (0 <= UserConversation.unread_count uc)%Z)
          (t_user_conversation
             (sql_bump_unread_count ts conversation_id user_id s))) /\
  (forall uc, In uc (t_user_conversation s) ->
              UserConversation.user uc = user_id ->
              In uc (t_user_conversation
                       (sql_bump_unread_count ts conversation_id user_id s))).
Proof.
  cbn. induction (t_user_conversation s) as [|uc t (IH1 & IH2 & IH3 & IH4)].
  - repeat split; auto.
  - cbn [map]. repeat split.
    + rewrite IH1. f_equal.
      destruct (_ && _); reflexivity.
    + rewrite IH2. f_equal.
      destruct (_ && _); reflexivity.
    + intros H. inversion H as [|? ? Hx Ht]; subst. constructor; auto.
      destruct (_ && _); cbn; lia.
    + intros x [<-|Hx] Hu.
      * left. rewrite Hu, String.eqb_refl, andb_false_r. reflexivity.
      * right. apply IH4; auto.
Qed.

Lemma repoint_last_read_message_keeps (new : option string) (old : string)
    (s : db) :
  map membership
      (t_user_conversation (sql_repoint_last_read_message new old s)) =
    map membership (t_user_conversation s) /\
  map UserConversation.unread_count
      (t_user_conversation (sql_repoint_last_read_message new old s)) =
    map UserConversation.unread_count (t_user_conversation s).
Proof.
  cbn. induction (t_user_conversation s) as [|uc t [IH1 IH2]]; [auto|].
  cbn [map]. rewrite IH1, IH2.
  destruct (UserConversation.last_read_message uc) as [k|];
    [destruct (k =? old)|]; auto.
Qed.

Lemma set_last_message_keeps (conversation_id : string)
    (value : option string) (s : db) :
  map Conversation._id
      (t_conversation (sql_set_last_message conversation_id value s)) =
    map Conversation._id (t_conversation s) /\
  map Conversation.message_acl
      (t_conversation (sql_set_last_message conversation_id value s)) =
    map Conversation.message_acl (t_conversation s).
Proof.
  cbn. induction (t_conversation s) as [|c t [IH1 IH2]]; [auto|].
  cbn [map]. rewrite IH1, IH2.
  destruct (Conversation._id c =? conversation_id); auto.
Qed.

(** X7. The after-save hook on a creation never raises; it raises the sum
    of all unread counters by the number of membership rows of the
    conversation that belong to somebody else than the actor, leaves the
    actor's own rows as they are, and changes nobody's membership or read
    pointer. *)
Theorem create_unread_accounting (uid : string) (ts : Z)
    (record : Message.t) (s : db) :
  let s' := snd (handle_message_after_save uid ts record None s) in
  fst (handle_message_after_save uid ts record None s) = inr tt /\
  total_unread (t_user_conversation s') =
    (total_unread (t_user_conversation s) +
     Z.of_nat (List.length
                 (other_participants (Message.conversation record) uid
                    (t_user_conversation s))))%Z /\
  map membership (t_user_conversation s') =
    map membership (t_user_conversation s) /\
  map UserConversation.last_read_message (t_user_conversation s') =
    map UserConversation.last_read_message (t_user_conversation s) /\
  (forall uc, In uc (t_user_conversation s) ->
              UserConversation.user uc = uid ->
              In uc (t_user_conversation s')).
Proof.
  cbv zeta. rewrite after_save_create_run. cbn [fst snd].
  split; [reflexivity|].
  change (t_user_conversation
            (sql_set_last_message (Message.conversation record)
               (Some (Message._id record))
               (sql_bump_unread_count ts (Message.conversation record) uid
                  (with_notified
                     (notified s ++
                      [(Message.conversation record,
                        if Message.deleted record then "delete" else "create",
                        Message._id record)])%list s))))
    with (t_user_conversation
            (sql_bump_unread_count ts (Message.conversation record) uid s)).
  split; [apply bump_unread_count_total|].
  destruct (bump_unread_count_keeps ts (Message.conversation record) uid s)
    as (H1 & H2 & _ & H4).
  auto.
Qed.

(** X8. No save adds, removes or reassigns a membership row or a
    conversation row, and a save keeps every unread counter non-negative
    when they all were. *)
Theorem save_keeps_memberships (uid : string) (now ts : Z)
    (record : Message.t) (s : db) :
  let s' := snd (record_save uid now ts record s) in
  map membership (t_user_conversation s') =
    map membership (t_user_conversation s) /\
  map Conversation._id (t_conversation s') =
    map Conversation._id (t_conversation s) /\
  map Conversation.message_acl (t_conversation s') =
    map Conversation.message_acl (t_conversation s) /\
  (Forall (fun uc => (0 <= UserConversation.unread_count uc)%Z)
          (t_user_conversation s) ->
   Forall (fun uc => (0 <= UserConversation.unread_count uc)%Z)
          (t_user_conversation s')).
Proof.
  cbv zeta.
  destruct (record_save_tables uid now ts record s)
    as [[Hu Hc]|(_ & Hu & Hc)]; rewrite Hu, Hc.
  - auto.
  - destruct (bump_unread_count_keeps ts (Message.conversation record) uid s)
      as (H1 & _ & H3 & _).
    destruct (set_last_message_keeps (Message.conversation record)
                (Some (Message._id record)) s) as (H4 & H5).
    auto.
Qed.

(** X9. A delete, whatever its outcome, changes no unread counter and no
    membership, and adds or removes no conversation: of the membership and
    conversation rows it can only rewrite [last_read_message] and
    [last_message]. *)
Theorem delete_keeps_counters (uid : string) (now ts : Z)
    (message_id : string) (s : db) :
  let s' := snd (delete_message uid now ts message_id s) in
  map membership (t_user_conversation s') =
    map membership (t_user_conversation s) /\
  map UserConversation.unread_count (t_user_conversation s') =
    map UserConversation.unread_count (t_user_conversation s) /\
  map Conversation._id (t_conversation s') =
    map Conversation._id (t_conversation s) /\
  map Conversation.message_acl (t_conversation s') =
    map Conversation.message_acl (t_conversation s) /\
  message_seq s' = message_seq s.
Proof.
  cbv zeta.
  destruct (delete_message_tables uid now ts message_id s)
    as (Hu & Hc & Hq).
  cbv zeta in Hu, Hc, Hq.
  destruct Hu as [Hu|[new Hu]]; destruct Hc as [Hc|(cid & v & Hc)];
    rewrite Hu, Hc, Hq;
    try destruct (repoint_last_read_message_keeps new message_id s);
    try destruct (set_last_message_keeps cid v s); auto.
Qed.

(** ** The message table *)

(** What a successful edit stores. *)
Lemma record_save_edit_result (uid : string) (now ts : Z)
    (record o saved : Message.t) (s s' : db) :
  find (fun x => Message._id x =? Message._id record) (t_message s) = Some o ->
  record_save uid now ts record s = (inr saved, s') ->
  Message.deleted o = false /\
  Message._id saved = Message._id record /\
  Message.conversation saved = Message.conversation record /\
  Message.seq saved = Message.seq record /\
  Message.body saved = Message.body record /\
  Message.revision saved = Message.revision record /\
  Message.deleted saved = Message.deleted record /\
  Message.edited_at saved = Some now /\
  Message.edited_by saved = Some uid /\
  t_message s' =
    map (fun m => if Message._id m =? Message._id record then saved else m)
        (t_message s) /\
  (exists uc,
     UserConversation_fetch_one uid (Message.conversation record) s =
     (inr (Some uc), s)) /\
  (exists c,
     Conversation_fetch_one (Message.conversation record) s =
     (inr (Some c), s)).
Proof.
  intros Ho E.
  destruct (record_save_edit_frame _ _ _ _ _ _ _ _ Ho E) as (_ & _ & Hmap).
  destruct (record_save_edit_history _ _ _ _ _ _ _ _ Ho E)
    as (_ & _ & _ & _ & Hrev).
  revert E. rewrite record_save_run. cbv zeta. rewrite Ho.
  destruct (handle_message_before_save uid now record (Some o) s)
    as [[e|sv] s1] eqn:Hb; [discriminate|].
  intros [= <- _].
  destruct (before_save_fields _ _ _ _ _ _ _ Hb)
    as (H1 & H2 & H3 & H4 & H5 & H6 & _ & H8 & _).
  assert (Hok : exists saved0 s0,
            handle_message_before_save uid now record (Some o) s =
            (inr saved0, s0)) by eauto.
  apply before_save_succeeds_iff_helper in Hok.
  destruct Hok as (Hd & Hu & Hc).
  repeat split; auto.
Qed.

(** Every outcome of a delete on the message table: untouched, or the rows
    carrying the id replaced by one soft-deleted record. *)
Lemma delete_message_messages (uid : string) (now ts : Z)
    (message_id : string) (s : db) :
  let s' := snd (delete_message uid now ts message_id s) in
  t_message s' = t_message s \/
  exists m saved,
    find (fun x => Message._id x =? message_id) (t_message s) = Some m /\
    Message.deleted m = false /\
    Message._id saved = message_id /\
    Message.deleted saved = true /\
    Message.seq saved = Message.seq m /\
    t_message s' =
      map (fun x => if Message._id x =? message_id then saved else x)
          (t_message s).
Proof.
  cbv zeta. rewrite delete_message_run.
  destruct (find (fun m => Message._id m =? message_id) (t_message s))
    as [m|] eqn:Hm; [|cbn; auto].
  cbv zeta.
  destruct (find_by_id _ _ _ Hm) as [Hid _].
  assert (Ho : find (fun x => Message._id x
                              =? Message._id (Message.set_deleted true m))
                    (t_message s) = Some m).
  { cbn. rewrite Hid. exact Hm. }
  destruct (record_save uid now ts (Message.set_deleted true m) s)
    as [[e1|sv] s1] eqn:E.
  - destruct (record_save_edit_frame _ _ _ _ _ _ _ _ Ho E) as (_ & _ & H3).
    cbn. auto.
  - destruct (record_save_edit_result _ _ _ _ _ _ _ _ Ho E)
      as (Hd & H1 & _ & H3 & _ & _ & H6 & _ & _ & Hmap & _).
    cbn in H1, H3, H6, Hmap. rewrite Hid in H1, Hmap.
    destruct (with_db_conn _ s1) as [r2 s2] eqn:T.
    destruct (delete_transaction_frame _ _ _ _ _ T) as (Hmsg & _).
    right. exists m, sv.
    assert (Hs2 : t_message s2 =
                  map (fun x => if Message._id x =? message_id then sv else x)
                      (t_message s)) by congruence.
    destruct r2; cbn; repeat split; auto.
Qed.

(** X10. A save touches no message but the one it saves: the lookup of
    every other id gives what it gave before, and the table never gets
    shorter. *)
Theorem save_keeps_other_messages (uid : string) (now ts : Z)
    (record : Message.t) (s : db) (id : string) :
  id <> Message._id record ->
  let s' := snd (record_save uid now ts record s) in
  fst (Message_fetch_one id s') = fst (Message_fetch_one id s) /\
  (List.length (t_message s) <= List.length (t_message s'))%nat.
Proof.
  intros Hne. cbv zeta. unfold Message_fetch_one, query. cbn [fst].
  rewrite record_save_run. cbv zeta.
  destruct (handle_message_before_save uid now record _ s)
    as [[e|saved] s1] eqn:Hb;
    destruct (before_save_frame _ _ _ _ _ _ _ Hb) as (H1 & _).
  - cbn. rewrite H1. auto.
  - destruct (before_save_keeps _ _ _ _ _ _ _ Hb) as (Hid & _).
    destruct (find (fun x => Message._id x =? Message._id record)
                   (t_message s)) as [o|]; cbn; rewrite H1.
    + rewrite find_replace_other, length_map; auto. congruence.
    + rewrite find_append_other, length_app; cbn; [|congruence].
      split; [reflexivity|lia].
Qed.

Lemma save_keeps_other_messages_witness :
  fst (Message_fetch_one "m2"
         (snd (record_save "alice" 10 11 edit_of_m1 db_two_messages))) =
  inr (Some (msg "m2" "c1" 2 "world")).
Proof.
  apply (save_keeps_other_messages "alice" 10 11 edit_of_m1 db_two_messages
           "m2").
  discriminate.
Defined.

(** X11. A delete is soft, whatever its outcome: the message table keeps
    its rows in place, every row keeps its id, the rows of other messages
    are untouched, and no [deleted] flag is cleared. *)
Theorem delete_is_soft (uid : string) (now ts : Z) (message_id : string)
    (s : db) :
  Forall2
    (fun m m' =>
       Message._id m' = Message._id m /\
       (Message._id m <> message_id -> m' = m) /\
       (Message.deleted m = true -> Message.deleted m' = true))
    (t_message s)
    (t_message (snd (delete_message uid now ts message_id s))).
Proof.
  destruct (delete_message_messages uid now ts message_id s)
    as [H|(m & saved & _ & _ & Hid & Hdel & _ & H)];
    cbv zeta in H; rewrite H.
  - rewrite <- (map_id (t_message s)) at 2.
    apply Forall2_map_self. auto.
  - apply Forall2_map_self. intros x _.
    destruct (String.eqb_spec (Message._id x) message_id) as [Hx|Hx].
    + repeat split; auto; congruence.
    + auto.
Qed.

(** ** Reading messages *)

Lemma existsb_find_conversation (conversation_id : string)
    (l : list Conversation.t) :
  existsb (fun c => Conversation._id c =? conversation_id) l =
  match find (fun c => Conversation._id c =? conversation_id) l with
  | Some _ => true
  | None => false
  end.
Proof.
  induction l as [|c t IH]; cbn; [reflexivity|].
  destruct (Conversation._id c =? conversation_id); auto.
Qed.

(** X12. [get_messages] never writes; it raises
    [ConversationNotFoundException] exactly when the conversation does not
    exist, without running the message query, and otherwise returns every
    message that query gives, in the query's order. *)
Theorem get_messages_outcome
    (fetch_all : string -> Z -> option Z -> option string -> db ->
                 list Message.t)
    (conversation_id : string) (limit : Z) (before_time : option Z)
    (order : option string) (s : db) :
  snd (get_messages fetch_all conversation_id limit before_time order s) = s
  /\
  (fst (get_messages fetch_all conversation_id limit before_time order s) =
     inl ConversationNotFoundException <->
   Conversation_fetch_one conversation_id s = (inr None, s)) /\
  (forall c,
     Conversation_fetch_one conversation_id s = (inr (Some c), s) ->
     fst (get_messages fetch_all conversation_id limit before_time order s) =
     inr (fetch_all conversation_id limit before_time order s)).
Proof.
  unfold get_messages, Conversation_exists, bind, query, raise, ret.
  rewrite conversation_fetch_one_run, existsb_find_conversation.
  unfold serialize_record.
  destruct (find _ (t_conversation s)) as [c|]; cbn; try rewrite map_id.
  - split; [reflexivity|]. split.
    + split; discriminate.
    + reflexivity.
  - split; [reflexivity|]. split.
    + split; reflexivity.
    + discriminate.
Qed.

(** ** The delete operation *)

Lemma delete_transaction_keeps (conversation : option Conversation.t)
    (message : Message.t) (s s' : db) (r : exn + unit) :
  with_db_conn
    (bind (_get_new_last_message_id message) (fun new_last_message_id =>
     bind (_update_conversation_last_message conversation message
                                              new_last_message_id) (fun _ =>
     _update_user_conversation_last_read_message message
                                                 new_last_message_id))) s
  = (r, s') ->
  notified s' = notified s /\ message_seq s' = message_seq s.
Proof.
  rewrite delete_transaction_run. cbv zeta.
  destruct conversation as [c|]; [|intros [= <- <-]; auto].
  destruct (Conversation.last_message c) as [k|].
  - destruct (Message._id message =? k).
    + destruct (option_map _ _); intros [= <- <-]; auto.
    + intros [= <- <-]; auto.
  - intros [= <- <-]; auto.
Qed.

(** The rows that can replace a message once its own rows carry the
    soft-deleted record. *)
Lemma replaced_candidates (id : string) (saved x : Message.t)
    (l : list Message.t) :
  Message._id saved = id -> Message.deleted saved = true ->
  (In x (map (fun y => if Message._id y =? id then saved else y) l) /\
   Message.deleted x = false) <->
  (In x l /\ Message._id x <> id /\ Message.deleted x = false).
Proof.
  intros Hid Hdel. rewrite in_map_iff. split.
  - intros [(y & Hy & Hin) Hx].
    destruct (String.eqb_spec (Message._id y) id) as [Heq|Hne]; subst x.
    + congruence.
    + auto.
  - intros (Hin & Hne & Hx). split; [|exact Hx].
    exists x. split; [|exact Hin].
    apply String.eqb_neq in Hne. rewrite Hne. reflexivity.
Qed.

(** X13. What a successful delete leaves behind: the stored message is
    flagged deleted and stamped with the actor and the clock, its body,
    sequence number, revision and conversation are those it had; the
    archive has gained the message as it was before; one ['delete'] event
    has been announced; and the record returned is the message as loaded,
    with [deleted] set. *)
Theorem delete_message_result (uid : string) (now ts : Z)
    (message_id : string) (record : Message.t) (s s' : db) :
  delete_message uid now ts message_id s = (inr record, s') ->
  exists m stored,
    Message_fetch_one message_id s = (inr (Some m), s) /\
    Message.deleted m = false /\
    record = Message.set_deleted true m /\
    Message_fetch_one message_id s' = (inr (Some stored), s') /\
    Message.deleted stored = true /\
    Message.body stored = Message.body m /\
    Message.seq stored = Message.seq m /\
    Message.revision stored = Message.revision m /\
    Message.conversation stored = Message.conversation m /\
    Message.edited_at stored = Some now /\
    Message.edited_by stored = Some uid /\
    t_message_history s' =
      (t_message_history s ++ [MessageHistory.mk m])%list /\
    notified s' =
      (notified s ++ [(Message.conversation m, "delete", message_id)])%list.
Proof.
  intros H.
  destruct (delete_message_success _ _ _ _ _ _ _ H)
    as (m & sv & s1 & c & Hm & Hrec & Hid & Hsave & _ & _ & _ & T).
  assert (Ho : find (fun x => Message._id x =? Message._id record)
                    (t_message s) = Some m) by (rewrite Hid; exact Hm).
  destruct (record_save_edit_result _ _ _ _ _ _ _ _ Ho Hsave)
    as (Hd & H1 & H2 & H3 & H4 & H5 & H6 & H7 & H8 & _).
  destruct (record_save_edit_history _ _ _ _ _ _ _ _ Ho Hsave)
    as (Hh & Hf & _).
  assert (Hn := record_save_notified uid now ts record (Some m) s s1
                  (inr sv) (proj2 (fetch_one_find _ _ _) Ho) Hsave).
  destruct (delete_transaction_frame _ _ _ _ _ T) as (Hmsg & Hhist & _).
  destruct (delete_transaction_keeps _ _ _ _ _ T) as (Hnot & _).
  rewrite Hid in Hf. subst record. cbn in *.
  exists m, sv. split; [apply fetch_one_find; exact Hm|].
  split; [exact Hd|]. split; [reflexivity|].
  split; [apply fetch_one_find; rewrite Hmsg; exact Hf|].
  repeat split; congruence.
Qed.

Lemma delete_message_result_witness :
  exists m stored,
    Message_fetch_one "m2" db_two_messages =
      (inr (Some m), db_two_messages) /\
    Message.deleted m = false /\
    deleted_m2 = Message.set_deleted true m /\
    Message_fetch_one "m2" db_after_delete_m2 =
      (inr (Some stored), db_after_delete_m2) /\
    Message.deleted stored = true /\
    Message.body stored = Message.body m /\
    Message.seq stored = Message.seq m /\
    Message.revision stored = Message.revision m /\
    Message.conversation stored = Message.conversation m /\
    Message.edited_at stored = Some 10%Z /\
    Message.edited_by stored = Some "alice" /\
    t_message_history db_after_delete_m2 =
      (t_message_history db_two_messages ++ [MessageHistory.mk m])%list /\
    notified db_after_delete_m2 =
      (notified db_two_messages ++
       [(Message.conversation m, "delete", "m2")])%list.
Proof.
  apply (delete_message_result "alice" 10 11 "m2" deleted_m2
           db_two_messages db_after_delete_m2).
  vm_compute. reflexivity.
Defined.

(** X14. After a successful delete no read pointer names the deleted
    message any more. *)
Theorem delete_leaves_no_read_pointer (uid : string) (now ts : Z)
    (message_id : string) (record : Message.t) (s s' : db) :
  delete_message uid now ts message_id s = (inr record, s') ->
  Forall (fun uc => UserConversation.last_read_message uc <> Some message_id)
         (t_user_conversation s').
Proof.
  intros H.
  destruct (delete_message_success _ _ _ _ _ _ _ H)
    as (m & sv & s1 & c & Hm & Hrec & Hid & Hsave & _ & _ & _ & T).
  assert (Ho : find (fun x => Message._id x =? Message._id record)
                    (t_message s) = Some m) by (rewrite Hid; exact Hm).
  destruct (record_save_edit_result _ _ _ _ _ _ _ _ Ho Hsave)
    as (_ & H1 & _ & H3 & _ & _ & H6 & _ & _ & Hmap & _).
  assert (Hnew : option_map Message._id
                   (fetchone (sql_select_new_last_message
                                (Message.seq record) s1))
                 <> Some message_id).
  { pose proof (select_new_last_message_spec (Message.seq record) s1) as Hs.
    destruct (fetchone _) as [row|]; cbn; [|discriminate].
    destruct Hs as (Hin & Hdel & _).
    rewrite Hmap in Hin.
    assert (Hc : In row (t_message s) /\ Message._id row <> Message._id record
                 /\ Message.deleted row = false).
    { apply (replaced_candidates (Message._id record) sv row (t_message s));
        auto. rewrite H6, Hrec. reflexivity. }
    intros [= Heq]. destruct Hc as (_ & Hne & _). congruence. }
  assert (Hrows : forall new s0,
            new <> Some message_id ->
            Forall (fun uc => UserConversation.last_read_message uc
                              <> Some message_id)
                   (t_user_conversation
                      (sql_repoint_last_read_message new message_id s0))).
  { intros new s0 Hn. cbn. apply Forall_forall. intros uc' Hin.
    apply in_map_iff in Hin. destruct Hin as (uc & <- & _).
    destruct (UserConversation.last_read_message uc) as [k|] eqn:E.
    - destruct (String.eqb_spec k message_id) as [->|Hk]; cbn.
      + exact Hn.
      + rewrite E. congruence.
    - rewrite E. discriminate. }
  rewrite delete_transaction_run in T. cbv zeta in T. rewrite Hid in T.
  destruct (Conversation.last_message c) as [k|].
  - destruct (message_id =? k).
    + destruct (option_map Message._id _) as [new|] eqn:En; [|discriminate].
      injection T as <-. apply Hrows. exact Hnew.
    + injection T as <-. apply Hrows. exact Hnew.
  - discriminate.
Qed.

Lemma delete_leaves_no_read_pointer_witness :
  Forall (fun uc => UserConversation.last_read_message uc <> Some "m2")
         (t_user_conversation db_after_delete_m2).
Proof.
  apply (delete_leaves_no_read_pointer "alice" 10 11 "m2" deleted_m2
           db_two_messages db_after_delete_m2).
  vm_compute. reflexivity.
Defined.

Lemma record_save_hook_failure (uid : string) (now ts : Z)
    (record : Message.t) (s s' : db) (e : exn) :
  record_save uid now ts record s = (inl e, s') ->
  handle_message_before_save uid now record
    (find (fun x => Message._id x =? Message._id record) (t_message s)) s =
  (inl e, s').
Proof.
  rewrite record_save_run. cbv zeta.
  destruct (handle_message_before_save uid now record _ s)
    as [[e0|saved] s1].
  - intros [= <- <-]. reflexivity.
  - destruct (find _ (t_message s)); discriminate.
Qed.

Lemma record_save_edit_succeeds (uid : string) (now ts : Z)
    (record o : Message.t) (s : db) :
  find (fun x => Message._id x =? Message._id record) (t_message s) = Some o ->
  Message.deleted o = false ->
  (exists uc,
     UserConversation_fetch_one uid (Message.conversation record) s =
     (inr (Some uc), s)) ->
  (exists c,
     Conversation_fetch_one (Message.conversation record) s =
     (inr (Some c), s)) ->
  exists saved s', record_save uid now ts record s = (inr saved, s').
Proof.
  intros Ho Hd Hu Hc.
  assert (Hok : exists saved s1,
            handle_message_before_save uid now record (Some o) s =
            (inr saved, s1)).
  { apply before_save_succeeds_iff_helper. auto. }
  destruct Hok as (saved & s1 & Hb).
  rewrite record_save_run. cbv zeta. rewrite Ho, Hb. eauto.
Qed.

(** X15. A delete succeeds exactly when the message exists and is not
    deleted, the actor is a member of its conversation, the conversation
    exists and has a [last_message] that is not null, and, in case that
    [last_message] names the message, some other non-deleted message of
    the table has a smaller sequence number. *)
Theorem delete_message_succeeds_iff (uid : string) (now ts : Z)
    (message_id : string) (s : db) :
  (exists record s',
     delete_message uid now ts message_id s = (inr record, s'))
  <->
  exists m c k,
    Message_fetch_one message_id s = (inr (Some m), s) /\
    Message.deleted m = false /\
    (exists uc,
       UserConversation_fetch_one uid (Message.conversation m) s =
       (inr (Some uc), s)) /\
    Conversation_fetch_one (Message.conversation m) s = (inr (Some c), s) /\
    Conversation.last_message c = Some k /\
    (k = message_id ->
     exists m',
       In m' (t_message s) /\ Message._id m' <> message_id /\
       Message.deleted m' = false /\ (Message.seq m' < Message.seq m)%Z).
Proof.
  split.
  - intros (record & s' & H).
    destruct (delete_message_success _ _ _ _ _ _ _ H)
      as (m & sv & s1 & c & Hm & Hrec & Hid & Hsave & _ & _ & Hc & T).
    assert (Ho : find (fun x => Message._id x =? Message._id record)
                      (t_message s) = Some m) by (rewrite Hid; exact Hm).
    destruct (record_save_edit_result _ _ _ _ _ _ _ _ Ho Hsave)
      as (Hd & H1 & _ & H3 & _ & _ & H6 & _ & _ & Hmap & Hu & _).
    assert (Hcv : Message.conversation record = Message.conversation m)
      by (rewrite Hrec; reflexivity).
    assert (Hsq : Message.seq record = Message.seq m)
      by (rewrite Hrec; reflexivity).
    rewrite Hcv in Hu, Hc.
    pose proof (select_new_last_message_spec (Message.seq record) s1) as Hs.
    rewrite delete_transaction_run in T. cbv zeta in T.
    destruct (Conversation.last_message c) as [k|] eqn:Hlast;
      [|discriminate].
    exists m, c, k. split; [apply fetch_one_find; exact Hm|].
    split; [exact Hd|]. split; [exact Hu|].
    split; [rewrite conversation_fetch_one_run, Hc; reflexivity|].
    split; [exact Hlast|].
    intros Hk. subst k. rewrite Hid, String.eqb_refl in T.
    destruct (fetchone _) as [row|]; cbn in T; [|discriminate].
    destruct Hs as (Hin & Hdel & Hlt & _).
    rewrite Hmap in Hin.
    assert (Hcand : In row (t_message s) /\
                    Message._id row <> Message._id record /\
                    Message.deleted row = false).
    { apply (replaced_candidates (Message._id record) sv row (t_message s));
        auto. rewrite H6, Hrec. reflexivity. }
    exists row. rewrite Hid in Hcand. rewrite <- Hsq. tauto.
  - intros (m & c & k & Hm & Hd & Hu & Hc & Hlast & Hrepl).
    apply fetch_one_find in Hm.
    destruct (find_by_id _ _ _ Hm) as [Hid _].
    assert (Ho : find (fun x => Message._id x
                                =? Message._id (Message.set_deleted true m))
                      (t_message s) = Some m).
    { cbn. rewrite Hid. exact Hm. }
    destruct (record_save_edit_succeeds uid now ts
                (Message.set_deleted true m) m s Ho Hd Hu
                (ex_intro _ c Hc)) as (sv & s1 & Hsave).
    destruct (record_save_edit_result _ _ _ _ _ _ _ _ Ho Hsave)
      as (_ & H1 & _ & H3 & _ & _ & H6 & _ & _ & Hmap & _).
    destruct (record_save_edit_frame _ _ _ _ _ _ _ _ Ho Hsave)
      as (Hconv & _).
    rewrite conversation_fetch_one_run in Hc. injection Hc as Hc.
    rewrite delete_message_run, Hm. cbv zeta. rewrite Hsave.
    rewrite delete_transaction_run. cbv zeta.
    cbn [Message.conversation Message.set_deleted Message._id Message.seq].
    rewrite Hconv, Hc, Hid, Hlast.
    destruct (String.eqb_spec message_id k) as [Hk|Hk]; [|eauto].
    destruct (Hrepl (eq_sym Hk)) as (m' & Hin & Hne & Hdel & Hlt).
    pose proof (select_new_last_message_spec (Message.seq m) s1) as Hs.
    destruct (fetchone _) as [row|]; cbn; [eauto|].
    exfalso. apply (Hs m'); auto.
    cbn in H1, H6, Hmap. rewrite Hid in H1, Hmap. rewrite Hmap.
    apply (proj2 (replaced_candidates message_id sv m' (t_message s) H1 H6)).
    auto.
Qed.

(** X16. Why a delete fails.  A message that is not there is a
    [MessageNotFoundException]; a deleted one an
    [AlreadyDeletedException]; an actor without membership a
    [NotInConversationException]: these three leave the database as it
    was.  A missing conversation is a [ConversationNotFoundException] with
    the message table untouched.  The only other failures come after the
    soft-delete has been saved and leave the message deleted: the
    [TypeError] of a last message without replacement, and the
    [AttributeError] of a conversation whose [last_message] is null. *)
Theorem delete_message_failures (uid : string) (now ts : Z)
    (message_id : string) (s s' : db) (e : exn) :
  delete_message uid now ts message_id s = (inl e, s') ->
  (e = MessageNotFoundException /\ s' = s /\
   Message_fetch_one message_id s = (inr None, s)) \/
  exists m,
    Message_fetch_one message_id s = (inr (Some m), s) /\
    ((e = AlreadyDeletedException /\ s' = s /\
      Message.deleted m = true) \/
     (e = NotInConversationException /\ s' = s /\
      Message.deleted m = false /\
      UserConversation_fetch_one uid (Message.conversation m) s =
      (inr None, s)) \/
     (e = ConversationNotFoundException /\
      Message.deleted m = false /\
      Conversation_fetch_one (Message.conversation m) s =
        (inr None, s) /\
      t_message s' = t_message s) \/
     ((e = TypeError \/ e = AttributeError) /\
      Message.deleted m = false /\
      (exists stored,
         Message_fetch_one message_id s' = (inr (Some stored), s') /\
         Message.deleted stored = true) /\
      exists c,
        Conversation_fetch_one (Message.conversation m) s =
          (inr (Some c), s) /\
        ((e = TypeError /\
          Conversation.last_message c = Some message_id /\
          is_new_last_message (t_message s') (Message.seq m) None) \/
         (e = AttributeError /\
          Conversation.last_message c = None)))).
Proof.
  rewrite delete_message_run.
  destruct (find (fun m => Message._id m =? message_id) (t_message s))
    as [m|] eqn:Hm.
  2: { intros [= <- <-]. left. repeat split; auto.
       apply fetch_one_find. exact Hm. }
  cbv zeta. intros H. right. exists m.
  split; [apply fetch_one_find; exact Hm|].
  destruct (find_by_id _ _ _ Hm) as [Hid _].
  assert (Ho : find (fun x => Message._id x
                              =? Message._id (Message.set_deleted true m))
                    (t_message s) = Some m).
  { cbn. rewrite Hid. exact Hm. }
  destruct (record_save uid now ts (Message.set_deleted true m) s)
    as [[e1|sv] s1] eqn:E.
  - injection H as <- <-.
    pose proof (record_save_hook_failure _ _ _ _ _ _ _ E) as Hb.
    rewrite Ho in Hb.
    destruct (before_save_frame _ _ _ _ _ _ _ Hb) as (Hmsg & _).
    destruct (before_save_errors _ _ _ _ _ _ _ Hb)
      as [(-> & -> & o & [= <-] & Hd)
         |[(-> & -> & Hd & Hu)|(-> & Hd & _ & Hc)]].
    + left. auto.
    + right. left. auto.
    + right. right. left. auto.
  - destruct (record_save_edit_result _ _ _ _ _ _ _ _ Ho E)
      as (Hd & H1 & _ & H3 & _ & _ & H6 & _ & _ & Hmap & _ & (c & Hc)).
    destruct (record_save_edit_history _ _ _ _ _ _ _ _ Ho E)
      as (_ & Hf & _).
    destruct (record_save_edit_frame _ _ _ _ _ _ _ _ Ho E) as (Hconv & _).
    cbn [Message._id Message.conversation Message.set_deleted] in *.
    rewrite Hid in Hf.
    destruct (with_db_conn _ s1) as [[e2|u] s2] eqn:T; [|discriminate].
    injection H as <- <-.
    destruct (delete_transaction_frame _ _ _ _ _ T) as (_ & _ & He & Hs2).
    subst s2.
    right. right. right.
    split; [exact He|]. split; [exact Hd|].
    split.
    { exists sv. split; [apply fetch_one_find; exact Hf|exact H6]. }
    exists c. split; [exact Hc|].
    pose proof (select_new_last_message_spec
                  (Message.seq (Message.set_deleted true m)) s1) as Hs.
    rewrite delete_transaction_run in T. cbv zeta in T.
    rewrite Hconv in T.
    pose proof Hc as Hc'. rewrite conversation_fetch_one_run in Hc'.
    injection Hc' as Hc'. rewrite Hc' in T.
    cbn [Message._id Message.conversation Message.set_deleted] in T.
    rewrite Hid in T.
    destruct (Conversation.last_message c) as [k|] eqn:Hlast.
    + destruct (String.eqb_spec message_id k) as [Hk|Hk]; [|discriminate].
      destruct (fetchone _) as [row|]; cbn in T; [discriminate|].
      injection T as <-. left.
      split; [reflexivity|]. split; [congruence|exact Hs].
    + injection T as <-. right. auto.
Qed.

Lemma delete_message_failures_witness :
  (TypeError = MessageNotFoundException /\ db_after_failed_delete = db_one_message /\
   Message_fetch_one "m1" db_one_message = (inr None, db_one_message)) \/
  exists m,
    Message_fetch_one "m1" db_one_message = (inr (Some m), db_one_message) /\
    ((TypeError = AlreadyDeletedException /\ db_after_failed_delete = db_one_message /\
      Message.deleted m = true) \/
     (TypeError = NotInConversationException /\ db_after_failed_delete = db_one_message /\
      Message.deleted m = false /\
      UserConversation_fetch_one "alice" (Message.conversation m) db_one_message =
      (inr None, db_one_message)) \/
     (TypeError = ConversationNotFoundException /\
      Message.deleted m = false /\
      Conversation_fetch_one (Message.conversation m) db_one_message =
        (inr None, db_one_message) /\
      t_message db_after_failed_delete = t_message db_one_message) \/
     ((TypeError = TypeError \/ TypeError = AttributeError) /\
      Message.deleted m = false /\
      (exists stored,
         Message_fetch_one "m1" db_after_failed_delete = (inr (Some stored), db_after_failed_delete) /\
         Message.deleted stored = true) /\
      exists c,
        Conversation_fetch_one (Message.conversation m) db_one_message =
          (inr (Some c), db_one_message) /\
        ((TypeError = TypeError /\
          Conversation.last_message c = Some "m1" /\
          is_new_last_message (t_message db_after_failed_delete) (Message.seq m) None) \/
         (TypeError = AttributeError /\
          Conversation.last_message c = None)))).
Proof.
  apply (delete_message_failures "alice" 10 11 "m1" db_one_message
           db_after_failed_delete TypeError).
  vm_compute. reflexivity.
Defined.

(** ** The replacement query *)

(** X17. [_get_new_last_message_id] only reads.  It returns the id of a
    non-deleted row whose sequence number is the greatest below the
    message's, looked for in the whole message table, and [None] exactly
    when the table has no non-deleted row below it. *)
Theorem new_last_message_id_characterised (message : Message.t) (s : db) :
  snd (_get_new_last_message_id message s) = s /\
  exists row,
    fst (_get_new_last_message_id message s) =
      inr (option_map Message._id row) /\
    is_new_last_message (t_message s) (Message.seq message) row /\
    (row = None <->
     forall m, In m (t_message s) -> Message.deleted m = false ->
               (Message.seq message <= Message.seq m)%Z).
Proof.
  split.
  - unfold _get_new_last_message_id, bind, query, ret. reflexivity.
  - exists (fetchone (sql_select_new_last_message (Message.seq message) s)).
    pose proof (select_new_last_message_spec (Message.seq message) s) as Hs.
    split; [|split; [exact Hs|]].
    + unfold _get_new_last_message_id, bind, query, ret. cbn.
      destruct (fetchone _); reflexivity.
    + destruct (fetchone _) as [row|]; cbn in Hs.
      * split; [discriminate|].
        intros Hall. destruct Hs as (Hin & Hd & Hlt & _).
        specialize (Hall row Hin Hd). lia.
      * split; [|reflexivity].
        intros _ m Hin Hd.
        destruct (Z_lt_le_dec (Message.seq m) (Message.seq message))
          as [Hlt|Hle]; [|exact Hle].
        exfalso. apply (Hs m); assumption.
Qed.

Lemma NoDup_map_injective {A B : Type} (f : A -> B) (l : list A) (x y : A) :
  NoDup (map f l) -> In x l -> In y l -> f x = f y -> x = y.
Proof.
  induction l as [|a t IH]; cbn; [contradiction|].
  intros Hnd Hx Hy Hf. inversion Hnd as [|? ? Hnotin Hnd']; subst.
  destruct Hx as [->|Hx]; destruct Hy as [->|Hy]; auto.
  - exfalso. apply Hnotin. rewrite Hf. apply in_map. exact Hy.
  - exfalso. apply Hnotin. rewrite <- Hf. apply in_map. exact Hx.
Qed.

Lemma is_new_last_message_unique (tbl : list Message.t) (sq : Z)
    (r1 r2 : option Message.t) :
  NoDup (map Message.seq tbl) ->
  is_new_last_message tbl sq r1 -> is_new_last_message tbl sq r2 ->
  r1 = r2.
Proof.
  intros Hnd H1 H2.
  destruct r1 as [h1|]; destruct r2 as [h2|]; cbn in H1, H2.
  - destruct H1 as (Hi1 & Hd1 & Hl1 & Hm1).
    destruct H2 as (Hi2 & Hd2 & Hl2 & Hm2).
    f_equal. apply (NoDup_map_injective Message.seq tbl); auto.
    specialize (Hm1 h2 Hi2 Hd2 Hl2). specialize (Hm2 h1 Hi1 Hd1 Hl1). lia.
  - destruct H1 as (Hi1 & Hd1 & Hl1 & _). exfalso. eapply H2; eauto.
  - destruct H2 as (Hi2 & Hd2 & Hl2 & _). exfalso. eapply H1; eauto.
  - reflexivity.
Qed.

Lemma is_new_last_message_permutation (tbl tbl' : list Message.t) (sq : Z)
    (r : option Message.t) :
  Permutation tbl tbl' ->
  is_new_last_message tbl sq r -> is_new_last_message tbl' sq r.
Proof.
  intros Hp. destruct r as [h|]; cbn.
  - intros (Hi & Hd & Hl & Hm). repeat split; auto.
    + apply (Permutation_in _ Hp). exact Hi.
    + intros m Hin. apply Hm.
      apply (Permutation_in _ (Permutation_sym Hp)). exact Hin.
  - intros Hn m Hin. apply Hn.
    apply (Permutation_in _ (Permutation_sym Hp)). exact Hin.
Qed.

Lemma get_new_last_message_id_run (message : Message.t) (s : db) :
  _get_new_last_message_id message s =
  (inr (option_map Message._id
          (fetchone (sql_select_new_last_message (Message.seq message) s))),
   s).
Proof.
  unfold _get_new_last_message_id, bind, query, ret.
  destruct (fetchone _); reflexivity.
Qed.

(** X18. When sequence numbers are unique, the replacement does not
    depend on the order in which the table holds its rows. *)
Theorem new_last_message_id_order_independent (message : Message.t)
    (s1 s2 : db) :
  Permutation (t_message s1) (t_message s2) ->
  NoDup (map Message.seq (t_message s1)) ->
  fst (_get_new_last_message_id message s1) =
  fst (_get_new_last_message_id message s2).
Proof.
  intros Hp Hnd.
  pose proof (select_new_last_message_spec (Message.seq message) s1) as H1.
  pose proof (select_new_last_message_spec (Message.seq message) s2) as H2.
  apply (is_new_last_message_permutation _ _ _ _ (Permutation_sym Hp)) in H2.
  pose proof (is_new_last_message_unique _ _ _ _ Hnd H1 H2) as Heq.
  rewrite !get_new_last_message_id_run. cbn [fst].
  rewrite Heq. reflexivity.
Qed.

Lemma new_last_message_id_order_independent_witness :
  fst (_get_new_last_message_id (msg "m3" "c1" 3 "x") db_two_messages) =
  fst (_get_new_last_message_id (msg "m3" "c1" 3 "x")
         (with_message [msg "m2" "c1" 2 "world"; msg "m1" "c1" 1 "hello"]
                       db_two_messages)).
Proof.
  apply (new_last_message_id_order_independent (msg "m3" "c1" 3 "x")
           db_two_messages
           (with_message [msg "m2" "c1" 2 "world"; msg "m1" "c1" 1 "hello"]
                         db_two_messages)).
  - apply perm_swap.
  - cbn. constructor.
    + intros [H|[]]. discriminate H.
    + constructor; [intros []|constructor].
Defined.

Lemma insert_desc_permutation (r : Message.t) (l : list Message.t) :
  Permutation (r :: l) (insert_desc r l).
Proof.
  induction l as [|x t IH]; cbn; [reflexivity|].
  destruct (Message.seq x <? Message.seq r)%Z; [reflexivity|].
  rewrite perm_swap. constructor. exact IH.
Qed.

Lemma insert_desc_sorted (r : Message.t) (l : list Message.t) :
  StronglySorted (fun a b => (Message.seq b <= Message.seq a)%Z) l ->
  StronglySorted (fun a b => (Message.seq b <= Message.seq a)%Z)
                 (insert_desc r l).
Proof.
  induction l as [|x t IH]; cbn; intros Hs.
  - constructor; constructor.
  - inversion Hs as [|? ? Hst Hall]; subst.
    destruct (Message.seq x <? Message.seq r)%Z eqn:E.
    + apply Z.ltb_lt in E. constructor; [exact Hs|].
      constructor; [lia|].
      eapply Forall_impl; [|exact Hall]. cbn. intros; lia.
    + apply Z.ltb_ge in E. constructor; [apply IH; exact Hst|].
      apply Forall_forall. intros y Hy.
      apply insert_desc_In in Hy. destruct Hy as [->|Hy]; [exact E|].
      rewrite Forall_forall in Hall. auto.
Qed.

(** X19. The ordering of the replacement query rearranges the candidate
    rows, losing and adding none, into non-increasing sequence numbers;
    the row the query returns is the first of them. *)
Theorem order_by_seq_desc_sorts (l : list Message.t) :
  Permutation l (order_by_seq_desc l) /\
  StronglySorted (fun a b => (Message.seq b <= Message.seq a)%Z)
                 (order_by_seq_desc l).
Proof.
  induction l as [|x t [IHp IHs]]; cbn.
  - split; constructor.
  - split.
    + rewrite <- insert_desc_permutation. constructor. exact IHp.
    + apply insert_desc_sorted. exact IHs.
Qed.

(** ** The pointer updates *)

(** X20. [_update_conversation_last_message] touches no table but
    [conversation], keeps every row's id and ACL and leaves the rows of
    every other conversation as they are.  It raises [TypeError] or
    [AttributeError] and nothing else, having written nothing; a null
    [last_message] is an [AttributeError].  When the conversation's
    [last_message] names another message it writes nothing and returns;
    when it names the message and a replacement id is given, the rows with
    the conversation's id receive the text ['message/' + id] as their
    [last_message]. *)
Theorem update_conversation_last_message_frame
    (conversation : option Conversation.t) (last_message : Message.t)
    (new_last_message_id : option string) (s : db) :
  let r := fst (_update_conversation_last_message conversation last_message
                  new_last_message_id s) in
  let s' := snd (_update_conversation_last_message conversation last_message
                   new_last_message_id s) in
  t_message s' = t_message s /\
  t_user_conversation s' = t_user_conversation s /\
  t_message_history s' = t_message_history s /\
  notified s' = notified s /\
  Forall2
    (fun c c' =>
       Conversation._id c' = Conversation._id c /\
       Conversation.message_acl c' = Conversation.message_acl c /\
       (Conversation._id c <> Message.conversation last_message ->
        Conversation.last_message c' = Conversation.last_message c))
    (t_conversation s) (t_conversation s') /\
  (forall e, r = inl e -> (e = TypeError \/ e = AttributeError) /\ s' = s) /\
  (forall c, conversation = Some c ->
             Conversation.last_message c = None ->
             r = inl AttributeError) /\
  (forall c k, conversation = Some c ->
               Conversation.last_message c = Some k ->
               k <> Message._id last_message ->
               r = inr tt /\ s' = s) /\
  (forall c n, conversation = Some c ->
               Conversation.last_message c = Some (Message._id last_message) ->
               new_last_message_id = Some n ->
               r = inr tt /\
               Forall2
                 (fun c0 c1 =>
                    Conversation._id c0 = Message.conversation last_message ->
                    Conversation.last_message c1 = Some ("message/" ++ n))
                 (t_conversation s) (t_conversation s')).
Proof.
  cbv zeta.
  assert (Hsame : Forall2
            (fun c c' =>
               Conversation._id c' = Conversation._id c /\
               Conversation.message_acl c' = Conversation.message_acl c /\
               (Conversation._id c <> Message.conversation last_message ->
                Conversation.last_message c' = Conversation.last_message c))
            (t_conversation s) (t_conversation s)).
  { rewrite <- (map_id (t_conversation s)) at 2.
    apply Forall2_map_self. auto. }
  unfold _update_conversation_last_message, raise, ret, execute.
  destruct conversation as [c|];
    [destruct (Conversation.last_message c) as [k|] eqn:Hlast;
     [destruct (String.eqb_spec (Message._id last_message) k) as [Hk|Hk];
      [destruct new_last_message_id as [new|]|]|]|];
    cbn [fst snd t_message t_user_conversation t_message_history notified
         t_conversation sql_set_last_message with_conversation].
  1: { split; [reflexivity|]. split; [reflexivity|].
       split; [reflexivity|]. split; [reflexivity|].
       split; [|split; [|split; [|split]]].
       - apply Forall2_map_self. intros c0 _.
         destruct (String.eqb_spec (Conversation._id c0)
                                   (Message.conversation last_message));
           cbn; repeat split; auto; congruence.
       - discriminate.
       - intros c0 [= <-] Hn. congruence.
       - intros c0 k0 [= <-] Hl Hne. congruence.
       - intros c0 n [= <-] _ [= <-]. split; [reflexivity|].
         apply Forall2_map_self. intros c0 _ Hc0.
         apply String.eqb_eq in Hc0. rewrite Hc0. reflexivity. }
  all: split; [reflexivity|]; split; [reflexivity|];
       split; [reflexivity|]; split; [reflexivity|];
       split; [exact Hsame|]; split; [|split; [|split]].
  all: try discriminate.
  all: try (intros e0 [= <-]; auto; fail).
  all: try (intros c0 [= <-] Hn; congruence).
  all: try (intros c0 k0 [= <-] Hl Hne; split; congruence).
  all: try (intros c0 n [= <-] Hl Hn; congruence).
  all: try (intros c0 Hc0; discriminate Hc0).
  all: try (intros c0 k0 Hc0; discriminate Hc0).
Qed.

(** X21. [_update_user_conversation_last_read_message] never raises, and
    running it a second time changes nothing more, as long as the
    replacement is not the deleted message itself. *)
Theorem update_last_read_message_idempotent (last_message : Message.t)
    (new_last_message_id : option string) (s : db) :
  new_last_message_id <> Some (Message._id last_message) ->
  fst (_update_user_conversation_last_read_message last_message
         new_last_message_id s) = inr tt /\
  snd (_update_user_conversation_last_read_message last_message
         new_last_message_id
         (snd (_update_user_conversation_last_read_message last_message
                 new_last_message_id s))) =
  snd (_update_user_conversation_last_read_message last_message
         new_last_message_id s).
Proof.
  intros Hne.
  unfold _update_user_conversation_last_read_message, execute. cbn [fst snd].
  split; [reflexivity|].
  unfold sql_repoint_last_read_message, with_user_conversation. cbn.
  f_equal. rewrite map_map. apply map_ext. intros uc.
  destruct (UserConversation.last_read_message uc) as [k|] eqn:E.
  - destruct (String.eqb_spec k (Message._id last_message)) as [Hk|Hk].
    + cbn. destruct new_last_message_id as [n|]; [|reflexivity].
      destruct (String.eqb_spec n (Message._id last_message)); [|reflexivity].
      congruence.
    + rewrite E. apply String.eqb_neq in Hk. rewrite Hk. reflexivity.
  - rewrite E. reflexivity.
Qed.

Lemma update_last_read_message_idempotent_witness :
  snd (_update_user_conversation_last_read_message
         (msg "m2" "c1" 2 "world") (Some "m1")
         (snd (_update_user_conversation_last_read_message
                 (msg "m2" "c1" 2 "world") (Some "m1") db_two_messages))) =
  snd (_update_user_conversation_last_read_message
         (msg "m2" "c1" 2 "world") (Some "m1") db_two_messages).
Proof.
  apply (update_last_read_message_idempotent (msg "m2" "c1" 2 "world")
           (Some "m1") db_two_messages).
  discriminate.
Defined.

(** ** What a successful delete writes into the pointers *)

(** X22. After a successful delete every membership row whose
    [last_read_message] was the deleted message has it set to the id the
    replacement query selects, a non-deleted message with the greatest
    sequence number below the deleted one's in the whole message table, or
    to null when there is none; the other rows keep theirs, and no other
    field of any row changes. *)
Theorem delete_repoints_read_pointers (uid : string) (now ts : Z)
    (message_id : string) (record : Message.t) (s s' : db) :
  delete_message uid now ts message_id s = (inr record, s') ->
  exists replacement,
    is_new_last_message (t_message s') (Message.seq record) replacement /\
    Forall2
      (fun uc uc' =>
         UserConversation.user uc' = UserConversation.user uc /\
         UserConversation.conversation uc' =
           UserConversation.conversation uc /\
         UserConversation.unread_count uc' =
           UserConversation.unread_count uc /\
         UserConversation._updated_at uc' = UserConversation._updated_at uc /\
         (UserConversation.last_read_message uc = Some message_id ->
          UserConversation.last_read_message uc' =
          option_map Message._id replacement) /\
         (UserConversation.last_read_message uc <> Some message_id ->
          UserConversation.last_read_message uc' =
          UserConversation.last_read_message uc))
      (t_user_conversation s) (t_user_conversation s').
Proof.
  intros H.
  destruct (delete_message_success _ _ _ _ _ _ _ H)
    as (m & sv & s1 & c & Hm & Hrec & Hid & Hsave & Hconv & Huc & Hc & T).
  exists (fetchone (sql_select_new_last_message (Message.seq record) s1)).
  destruct (delete_transaction_frame _ _ _ _ _ T) as (Hmsg & _).
  split.
  - rewrite Hmsg. apply select_new_last_message_spec.
  - rewrite <- Huc, <- Hid.
    rewrite delete_transaction_run in T. cbv zeta in T.
    destruct (Conversation.last_message c) as [k|]; [|discriminate].
    destruct (Message._id record =? k).
    + destruct (option_map Message._id _) as [new|] eqn:Hnew;
        [|discriminate].
      injection T as <-.
      apply (repoint_last_read_message_fields (Some new)
               (Message._id record)
               (sql_set_last_message (Message.conversation record)
                  (Some ("message/" ++ new)) s1)).
    + injection T as <-. apply repoint_last_read_message_fields.
Qed.

Lemma delete_repoints_read_pointers_witness :
  exists replacement,
    is_new_last_message (t_message db_after_delete_m2) 2 replacement /\
    Forall2
      (fun uc uc' =>
         UserConversation.user uc' = UserConversation.user uc /\
         UserConversation.conversation uc' =
           UserConversation.conversation uc /\
         UserConversation.unread_count uc' =
           UserConversation.unread_count uc /\
         UserConversation._updated_at uc' = UserConversation._updated_at uc /\
         (UserConversation.last_read_message uc = Some "m2" ->
          UserConversation.last_read_message uc' =
          option_map Message._id replacement) /\
         (UserConversation.last_read_message uc <> Some "m2" ->
          UserConversation.last_read_message uc' =
          UserConversation.last_read_message uc))
      (t_user_conversation db_two_messages)
      (t_user_conversation db_after_delete_m2).
Proof.
  apply (delete_repoints_read_pointers "alice" 10 11 "m2" deleted_m2
           db_two_messages db_after_delete_m2).
  vm_compute. reflexivity.
Defined.

(** X23. During a successful delete the conversation of the message
    exists and its [last_message] is not null.  When it names another
    message the conversation table is left as it was.  When it names the
    deleted message, the replacement query has selected a message, and
    the rows with the conversation's id have their [last_message] set to
    the text ['message/'] followed by that message's id; ids and ACLs
    stay, and so does the [last_message] of every other conversation. *)
Theorem delete_rewrites_last_message (uid : string) (now ts : Z)
    (message_id : string) (record : Message.t) (s s' : db) :
  delete_message uid now ts message_id s = (inr record, s') ->
  exists c k,
    Conversation_fetch_one (Message.conversation record) s =
      (inr (Some c), s) /\
    Conversation.last_message c = Some k /\
    (k <> message_id -> t_conversation s' = t_conversation s) /\
    (k = message_id ->
     exists replacement,
       is_new_last_message (t_message s') (Message.seq record)
                           (Some replacement) /\
       Forall2
         (fun c0 c1 =>
            Conversation._id c1 = Conversation._id c0 /\
            Conversation.message_acl c1 = Conversation.message_acl c0 /\
            (Conversation._id c0 = Message.conversation record ->
             Conversation.last_message c1 =
             Some ("message/" ++ Message._id replacement)) /\
            (Conversation._id c0 <> Message.conversation record ->
             Conversation.last_message c1 = Conversation.last_message c0))
         (t_conversation s) (t_conversation s')).
Proof.
  intros H.
  destruct (delete_message_success _ _ _ _ _ _ _ H)
    as (m & sv & s1 & c & Hm & Hrec & Hid & Hsave & Hconv & Huc & Hc & T).
  destruct (delete_transaction_frame _ _ _ _ _ T) as (Hmsg & _).
  pose proof (select_new_last_message_spec (Message.seq record) s1) as Hspec.
  rewrite delete_transaction_run in T. cbv zeta in T.
  destruct (Conversation.last_message c) as [k|] eqn:Hlast; [|discriminate].
  exists c, k.
  split; [rewrite conversation_fetch_one_run, Hc; reflexivity|].
  split; [exact Hlast|].
  rewrite <- Hconv, Hmsg. rewrite Hid in T.
  destruct (String.eqb_spec message_id k) as [Hk|Hk].
  - destruct (fetchone _) as [row|]; cbn in T; [|discriminate].
    injection T as <-. split; [congruence|].
    intros _. exists row. split; [exact Hspec|].
    apply (set_last_message_fields (Message.conversation record)
             (Some ("message/" ++ Message._id row)) s1).
  - injection T as <-. split; [reflexivity|]. congruence.
Qed.

Lemma delete_rewrites_last_message_witness :
  exists c k,
    Conversation_fetch_one (Message.conversation deleted_m2)
      db_two_messages = (inr (Some c), db_two_messages) /\
    Conversation.last_message c = Some k /\
    (k <> "m2" ->
     t_conversation db_after_delete_m2 = t_conversation db_two_messages) /\
    (k = "m2" ->
     exists replacement,
       is_new_last_message (t_message db_after_delete_m2)
                           (Message.seq deleted_m2) (Some replacement) /\
       Forall2
         (fun c0 c1 =>
            Conversation._id c1 = Conversation._id c0 /\
            Conversation.message_acl c1 = Conversation.message_acl c0 /\
            (Conversation._id c0 = Message.conversation deleted_m2 ->
             Conversation.last_message c1 =
             Some ("message/" ++ Message._id replacement)) /\
            (Conversation._id c0 <> Message.conversation deleted_m2 ->
             Conversation.last_message c1 = Conversation.last_message c0))
         (t_conversation db_two_messages)
         (t_conversation db_after_delete_m2)).
Proof.
  apply (delete_rewrites_last_message "alice" 10 11 "m2" deleted_m2
           db_two_messages db_after_delete_m2).
  vm_compute. reflexivity.
Defined.
